(** * xtraq, [tools/find_unresolved_json.py]: the scan for unresolved [Name] nodes

    The script walks every [*.json] snapshot under [debug/.xtraq], parses it,
    and lists the places where an object that holds nothing but a [Name] key
    sits below a [Columns] or [Parameters] key.  This file embeds the script
    (the recursive [visit], the module-level driver loop and the report) and
    proves what the design notes say about it. *)

From Stdlib Require Import String Ascii ZArith List Bool Lia DecimalString.
From stdpp Require Import base option list strings gmap.
Import ListNotations.

Local Open Scope string_scope.
Local Open Scope list_scope.

(** ** Parsed documents

    What [json.load] hands back: [None], [bool], [int], [float], [str], [list]
    and [dict] with [str] keys.  A [dict] keeps its items in insertion order,
    which is the order [items()] yields, so it is an association list here.
    A [float] is kept as the text [str] gives for it: [visit] does nothing
    else with one.  Text is a [string] with one character for each code
    point, so the documents here are those whose text stays below code
    point 256. *)

#[local] Unset Elimination Schemes.
Inductive json : Type :=
| JNone
| JBool (b : bool)
| JInt (n : Z)
| JFloat (text : string)
| JStr (s : string)
| JList (node_list : list json)
| JDict (node_dict : list (string * json)).
#[local] Set Elimination Schemes.

(** ** Python's [str] and [repr] on parsed documents *)

(** [str(n)] for an [int]: decimal digits, a leading minus sign when negative. *)
Definition str_int (n : Z) : string := NilZero.string_of_int (Z.to_int n).

Definition hex_digit (n : N) : ascii :=
  match n with
  | 0 => "0" | 1 => "1" | 2 => "2" | 3 => "3" | 4 => "4" | 5 => "5" | 6 => "6"
  | 7 => "7" | 8 => "8" | 9 => "9" | 10 => "a" | 11 => "b" | 12 => "c"
  | 13 => "d" | 14 => "e" | _ => "f"
  end%N%char.

Definition contains_char (c : ascii) (s : string) : bool :=
  existsb (Ascii.eqb c) (list_ascii_of_string s).

(** The code points below 256 that CPython does not print as they are: the
    control characters (below 32, and 127 to 159), the no-break space (160)
    and the soft hyphen (173). *)
Definition unprintable (n : N) : bool :=
  ((n <? 32) || ((127 <=? n) && (n <=? 160)) || (n =? 173))%N.

(** [repr] of one character inside the chosen quotes: the quote and the
    backslash get a backslash, tab, newline and return their letter, and
    what does not print its two hexadecimal digits. *)
Definition repr_char (quote c : ascii) : string :=
  let n := N_of_ascii c in
  if Ascii.eqb c quote || Ascii.eqb c "\"%char then String "\" (String c "")
  else if Ascii.eqb c "009"%char then "\t"
  else if Ascii.eqb c "010"%char then "\n"
  else if Ascii.eqb c "013"%char then "\r"
  else if unprintable n
       then String "\" (String "x" (String (hex_digit (n / 16)) (String (hex_digit (n mod 16)) "")))
  else String c "".

(** [repr(s)] for a [str]: single quotes, unless the text holds a single
    quote and no double quote. *)
Definition repr_str (s : string) : string :=
  let quote := if contains_char "'" s && negb (contains_char "034" s)
               then "034"%char else "'"%char in
  String quote
    (String.concat "" (map (repr_char quote) (list_ascii_of_string s))
     +:+ String quote "").

Fixpoint repr (node : json) : string :=
  match node with
  | JNone => "None"
  | JBool true => "True"
  | JBool false => "False"
  | JInt n => str_int n
  | JFloat text => text
  | JStr s => repr_str s
  | JList node_list => "[" +:+ String.concat ", " (map repr node_list) +:+ "]"
  | JDict node_dict =>
      "{" +:+ String.concat ", "
                (map (fun kv => repr_str (fst kv) +:+ ": " +:+ repr (snd kv)) node_dict)
          +:+ "}"
  end.

(** [str(node)]: the text itself for a [str], [repr] for everything else. *)
Definition str (node : json) : string :=
  match node with
  | JStr s => s
  | _ => repr node
  end.

(** ** The scanner *)

Abbreviation ResultEntry := (string * string)%type (only parsing).
Abbreviation Trail := (list string) (only parsing).

(** [node_dict.get(key)]: the value under the first item with that key, [None]
    when there is none. *)
Definition dict_get (key : string) (node_dict : list (string * json)) : json :=
  match find (fun kv => String.eqb (fst kv) key) node_dict with
  | Some kv => snd kv
  | None => JNone
  end.

Definition is_not_None (node : json) : bool :=
  match node with
  | JNone => false
  | _ => true
  end.

(** [any(segment == s for segment in trail)] *)
Definition any_segment (s : string) (trail : Trail) : bool :=
  existsb (fun segment => String.eqb segment s) trail.

(** ['/'.join(segments)] *)
Definition join (segments : list string) : string := String.concat "/" segments.

(** The test at the head of the [dict] branch and the [results.append] under
    it: the results as they stand once the node itself has been looked at. *)
Definition report (node_dict : list (string * json)) (trail : Trail) (path : string)
    (results : list ResultEntry) : list ResultEntry :=
  let name := dict_get "Name" node_dict in
  if is_not_None name && (length node_dict =? 1)%nat then
    if any_segment "Columns" trail || any_segment "Parameters" trail then
      let joined_trail := join (trail ++ [str name]) in
      results ++ [(path, joined_trail)]
    else results
  else results.

(** [for idx, item in enumerate(node_list): body], counting from [idx]. *)
Definition for_enumerate {St : Type} (body : nat -> json -> St -> St) :
    nat -> list json -> St -> St :=
  fix go (idx : nat) (node_list : list json) (st : St) : St :=
    match node_list with
    | [] => st
    | item :: rest => go (S idx) rest (body idx item st)
    end.

(** [for key, value in node_dict.items(): body] *)
Definition for_items {St : Type} (body : string -> json -> St -> St) :
    list (string * json) -> St -> St :=
  fix go (items : list (string * json)) (st : St) : St :=
    match items with
    | [] => st
    | (key, value) :: rest => go rest (body key value st)
    end.

(** [visit(node, trail, path)], threading the module-level [results] list. *)
Fixpoint visit (node : json) (trail : Trail) (path : string)
    (results : list ResultEntry) : list ResultEntry :=
  match node with
  | JDict node_dict =>
      for_items (fun key value => visit value (trail ++ [str (JStr key)]) path)
        node_dict (report node_dict trail path results)
  | JList node_list =>
      for_enumerate (fun idx item => visit item (trail ++ [str_int (Z.of_nat idx)]) path)
        0%nat node_list results
  | _ => results
  end.

(** What one call adds to [results]: the call run on an empty list. *)
Definition emitted (node : json) (trail : Trail) (path : string) : list ResultEntry :=
  visit node trail path [].


(** ** The driver loop and the report

    [BASE_DIR] is what the loop walks.  A directory entry is a file, with
    what opening it and [json.load] give ([None] when either raises), or a
    directory with its entries in the order the system lists them. *)

Inductive flavour : Type := Posix | Windows.

(** The separator [str] puts between the parts of a path. *)
Definition sep (host : flavour) : string :=
  match host with
  | Posix => "/"
  | Windows => "\"
  end.

Abbreviation Path := (list string) (only parsing).

Definition BASE_DIR : Path := ["debug"; ".xtraq"].

(** [file.name]: the last part. *)
Definition name (file : Path) : string := List.last file "".

(** [str(file)] *)
Definition str_path (host : flavour) (file : Path) : string :=
  String.concat (sep host) file.

#[local] Unset Elimination Schemes.
Inductive entry : Type :=
| File (file_name : string) (load : option json)
| Dir (dir_name : string) (entries : list entry).
#[local] Set Elimination Schemes.

Definition entry_name (e : entry) : string :=
  match e with
  | File n _ => n
  | Dir n _ => n
  end.

(** Opening a directory raises, as a file that does not parse does. *)
Definition entry_load (e : entry) : option json :=
  match e with
  | File _ load => load
  | Dir _ _ => None
  end.

Fixpoint map_chars (f : ascii -> ascii) (s : string) : string :=
  match s with
  | EmptyString => EmptyString
  | String c rest => String (f c) (map_chars f rest)
  end.

(** [s.replace(old, new)] for one-character [old] and [new]. *)
Definition replace (old new : ascii) (s : string) : string :=
  map_chars (fun c => if Ascii.eqb c old then new else c) s.

Definition lower_char (c : ascii) : ascii :=
  let n := N_of_ascii c in
  if (65 <=? n)%N && (n <=? 90)%N then ascii_of_N (n + 32) else c.

Fixpoint endswith (s suffix : string) : bool :=
  String.eqb s suffix
  || match s with
     | EmptyString => false
     | String _ rest => endswith rest suffix
     end.

(** Whether a name matches the pattern [*.json]: it ends with [.json], in
    any letter case on a host whose file names ignore case (ASCII folding). *)
Definition glob_json (host : flavour) (entry_name : string) : bool :=
  match host with
  | Posix => endswith entry_name ".json"
  | Windows => endswith (map_chars lower_char entry_name) ".json"
  end.

(** The entries of one directory that the pattern selects, as the paths the
    loop gets, each with what loading it gives. *)
Definition selected (host : flavour) (dir : Path) (entries : list entry) :
    list (Path * option json) :=
  flat_map (fun e => if glob_json host (entry_name e)
                     then [(dir ++ [entry_name e], entry_load e)]
                     else [])
    entries.

(** What the recursive pattern selects strictly below an entry. *)
Fixpoint below (host : flavour) (dir : Path) (e : entry) : list (Path * option json) :=
  match e with
  | File _ _ => []
  | Dir n entries =>
      selected host (dir ++ [n]) entries ++ flat_map (below host (dir ++ [n])) entries
  end.

(** [dir.rglob('*.json')] over a directory with these entries: its own
    matches, then those of each subdirectory in turn. *)
Definition rglob (host : flavour) (dir : Path) (entries : list entry) :
    list (Path * option json) :=
  selected host dir entries ++ flat_map (below host dir) entries.

(** One turn of the [for file in ...] loop. *)
Definition scan_file (host : flavour) (results : list ResultEntry)
    (file : Path * option json) : list ResultEntry :=
  if String.eqb (name (fst file)) "index.json" then results
  else match snd file with
       | None => results
       | Some data => visit data [] (replace "\" "/" (str_path host (fst file))) results
       end.

(** The guarded loop; [None] is a [BASE_DIR] that does not exist. *)
Definition scan (host : flavour) (base_dir : option (list entry))
    (results : list ResultEntry) : list ResultEntry :=
  match base_dir with
  | None => results
  | Some entries => fold_left (scan_file host) (rglob host BASE_DIR entries) results
  end.

(** The lines the two [print] statements write. *)
Definition report_lines (results : list ResultEntry) : list string :=
  map (fun entry => fst entry +:+ ": " +:+ snd entry) results
  ++ ["Total: " +:+ str_int (Z.of_nat (length results))].

(** A run of the script: the final [results] and the lines printed. *)
Definition main (host : flavour) (base_dir : option (list entry)) :
    list ResultEntry * list string :=
  let results := scan host base_dir [] in
  (results, report_lines results).

(** ** The scanner under a recursion limit

    [visit] calls itself once per level of nesting.  [visit_within limit] is
    the same function when the interpreter allows [limit] more nested calls
    of it; [None] stands for the error it raises past that. *)



(** The trail of every call a scan makes, in call order. *)
Fixpoint trails (node : json) (trail : Trail) : list Trail :=
  match node with
  | JDict node_dict =>
      for_items (fun key value acc => acc ++ trails value (trail ++ [str (JStr key)]))
        node_dict [trail]
  | JList node_list =>
      for_enumerate
        (fun idx item acc => acc ++ trails item (trail ++ [str_int (Z.of_nat idx)]))
        0%nat node_list [trail]
  | _ => [trail]
  end.

(** ** The scanner over list objects

    In Python a trail is a reference to a list object, and a callee that
    appended to the list it was given would change it for its caller too.
    This second embedding of [visit] keeps the list objects in a store, so
    that what the function does to them can be stated: [trail + [x]] makes a
    new object, and nothing writes to an old one. *)

Module Heap.

Record state : Type := State {
  lists : gmap nat Trail;         (* the list objects, by reference *)
  results : list ResultEntry;     (* the module-level [results] *)
  entered : list nat              (* ghost: the trail of each call so far *)
}.

(** The list a reference points to. *)
Definition read (lists : gmap nat Trail) (ref : nat) : Trail :=
  default [] (lists !! ref).

(** A new list object. *)
Definition new_list (items : Trail) (lists : gmap nat Trail) : nat * gmap nat Trail :=
  let ref := fresh (dom lists) in
  (ref, <[ref := items]> lists).

(** [trail + [segment]] *)
Definition plus (trail : nat) (segment : string) (lists : gmap nat Trail) :
    nat * gmap nat Trail :=
  new_list (read lists trail ++ [segment]) lists.

Definition report (node_dict : list (string * json)) (trail : nat) (path : string)
    (st : state) : state :=
  let name := dict_get "Name" node_dict in
  if is_not_None name && (length node_dict =? 1)%nat then
    if any_segment "Columns" (read (lists st) trail)
       || any_segment "Parameters" (read (lists st) trail) then
      let (extended, lists') := plus trail (str name) (lists st) in
      let joined_trail := join (read lists' extended) in
      State lists' (results st ++ [(path, joined_trail)]) (entered st)
    else st
  else st.

(** A recursive call on a child: the argument [trail + [segment]] is
    built, then the callee runs. *)
Definition descend (callee : nat -> string -> state -> state)
    (trail : nat) (segment : string) (path : string) (st : state) : state :=
  let (child, lists') := plus trail segment (lists st) in
  callee child path (State lists' (results st) (entered st)).

Fixpoint visit (node : json) (trail : nat) (path : string) (st : state) : state :=
  let st := State (lists st) (results st) (entered st ++ [trail]) in
  match node with
  | JDict node_dict =>
      for_items (fun key value => descend (visit value) trail (str (JStr key)) path)
        node_dict (report node_dict trail path st)
  | JList node_list =>
      for_enumerate
        (fun idx item => descend (visit item) trail (str_int (Z.of_nat idx)) path)
        0%nat node_list st
  | _ => st
  end.

End Heap.

(** ** What the proofs speak of *)

(** The object holds one item, and its key is [Name]. *)
Definition sole_Name (node_dict : list (string * json)) (value : json) : Prop :=
  node_dict = [("Name", value)].

(** Some segment of the trail is [Columns] or [Parameters]. *)
Definition under_Columns_or_Parameters (trail : Trail) : Prop :=
  In "Columns" trail \/ In "Parameters" trail.

(** The document of scenario A: [{"Columns":[{"Name":"id"}]}]. *)
Definition scenario_A : json :=
  JDict [("Columns", JList [JDict [("Name", JStr "id")]])].

(** The document of scenario B: [{"Widgets":[{"Name":"id"}]}]. *)
Definition scenario_B : json :=
  JDict [("Widgets", JList [JDict [("Name", JStr "id")]])].

(** The document of scenario C: [{"Parameters":{"p1":{"Name":"x","Type":"int"}}}]. *)
Definition scenario_C : json :=
  JDict [("Parameters", JDict [("p1", JDict [("Name", JStr "x"); ("Type", JStr "int")])])].


(** A character that prints as it is between single quotes: from the space
    to the tilde, the single quote and the backslash apart. *)
Definition plain_char (c : ascii) : bool :=
  let n := N_of_ascii c in
  ((32 <=? n) && (n <=? 126) && negb (n =? 39) && negb (n =? 92))%N.

Definition plain (s : string) : Prop :=
  forallb plain_char (list_ascii_of_string s) = true.

(** From [st] to [st']: every list object is kept as it was, [results] has
    grown by [out], and the calls entered meanwhile came with references
    that are new, all different, and now hold [new_trails]. *)
Definition extends (st st' : Heap.state) (out : list ResultEntry)
    (new_trails : list Trail) : Prop :=
  Heap.lists st ⊆ Heap.lists st'
  /\ Heap.results st' = Heap.results st ++ out
  /\ exists refs,
       Heap.entered st' = Heap.entered st ++ refs
       /\ NoDup refs
       /\ Forall (fun ref => Heap.lists st !! ref = None) refs
       /\ Forall2 (fun ref items => Heap.lists st' !! ref = Some items) refs new_trails.

(** What a call of the heap [visit] does, given the items its trail holds. *)
Definition visit_spec (node : json) (trail : nat) (items : Trail) (path : string)
    (st : Heap.state) : Prop :=
  let st' := Heap.visit node trail path st in
  Heap.lists st ⊆ Heap.lists st'
  /\ Heap.results st' = Heap.results st ++ emitted node items path
  /\ exists refs,
       Heap.entered st' = Heap.entered st ++ trail :: refs
       /\ NoDup refs
       /\ Forall (fun ref => Heap.lists st !! ref = None) refs
       /\ Forall2 (fun ref items => Heap.lists st' !! ref = Some items)
            (trail :: refs) (trails node items).


(** ** The nodes of a document *)

(** Every node of a tree with its trail, the tree's own trail being [trail],
    in the order [visit] reaches them. *)
Fixpoint subnodes (node : json) (trail : Trail) : list (list string * json) :=
  match node with
  | JDict node_dict =>
      for_items
        (fun key value acc => acc ++ subnodes value (trail ++ [str (JStr key)]))
        node_dict [(trail, node)]
  | JList node_list =>
      for_enumerate
        (fun idx item acc => acc ++ subnodes item (trail ++ [str_int (Z.of_nat idx)]))
        0%nat node_list [(trail, node)]
  | _ => [(trail, node)]
  end.

(** What a node adds for itself when [visit] is called on it. *)
Definition own_match (node : json) (trail : Trail) (path : string) : list ResultEntry :=
  match node with
  | JDict node_dict => report node_dict trail path []
  | _ => []
  end.

(** An object whose one key is [Name], with a value other than [None]. *)
Definition is_bare_Name (node : json) : bool :=
  match node with
  | JDict node_dict =>
      is_not_None (dict_get "Name" node_dict) && (length node_dict =? 1)%nat
  | _ => false
  end.

(** The value under [Name] in an object, [None] for any other node. *)
Definition Name_of (node : json) : json :=
  match node with
  | JDict node_dict => dict_get "Name" node_dict
  | _ => JNone
  end.

(** Some object of the tree has [Columns] or [Parameters] among its keys. *)
Fixpoint has_ancestor_key (node : json) : bool :=
  match node with
  | JDict node_dict =>
      existsb (fun kv => String.eqb (fst kv) "Columns"
                         || String.eqb (fst kv) "Parameters"
                         || has_ancestor_key (snd kv)) node_dict
  | JList node_list => existsb has_ancestor_key node_list
  | _ => false
  end.

(** The number of nodes of a tree. *)
Fixpoint size (node : json) : nat :=
  match node with
  | JDict node_dict => S (list_sum (map (fun kv => size (snd kv)) node_dict))
  | JList node_list => S (list_sum (map size node_list))
  | _ => 1
  end.

(** ** Where an entry lies

    [lies_at entries parents e]: going down from a directory with these
    entries through the directories named in [parents], one finds [e]. *)
Inductive lies_at : list entry -> list string -> entry -> Prop :=
| lies_here (entries : list entry) (e : entry) :
    In e entries -> lies_at entries [] e
| lies_below (entries : list entry) (n : string) (sub : list entry)
    (parents : list string) (e : entry) :
    In (Dir n sub) entries -> lies_at sub parents e ->
    lies_at entries (n :: parents) e.

(** ** Where a node lies

    [leads_to node rest sub]: going down from [node] by the keys and the
    indices of [rest], as [visit] writes them into the trail, one reaches
    [sub]. *)
Inductive leads_to : json -> list string -> json -> Prop :=
| leads_here (node : json) : leads_to node [] node
| leads_key (node_dict : list (string * json)) (key : string) (value : json)
    (rest : list string) (sub : json) :
    In (key, value) node_dict -> leads_to value rest sub ->
    leads_to (JDict node_dict) (str (JStr key) :: rest) sub
| leads_index (node_list : list json) (idx : nat) (item : json)
    (rest : list string) (sub : json) :
    nth_error node_list idx = Some item -> leads_to item rest sub ->
    leads_to (JList node_list) (str_int (Z.of_nat idx) :: rest) sub.

(** ** A directory without the files the pattern passes over

    [prune host e] is the entry [e] with every file whose name does not
    match [*.json] taken out, at every depth; a file that does not match is
    itself taken out. *)
Fixpoint prune (host : flavour) (e : entry) : list entry :=
  match e with
  | File n load => if glob_json host n then [File n load] else []
  | Dir n entries => [Dir n (flat_map (prune host) entries)]
  end.

Definition prune_all (host : flavour) (entries : list entry) : list entry :=
  flat_map (prune host) entries.
(** * Proofs *)

(** The induction principle that reaches into both containers. *)
Lemma json_tree_ind (P : json -> Prop) :
  P JNone ->
  (forall b, P (JBool b)) ->
  (forall n, P (JInt n)) ->
  (forall t, P (JFloat t)) ->
  (forall s, P (JStr s)) ->
  (forall l, Forall P l -> P (JList l)) ->
  (forall d, Forall (fun kv => P (snd kv)) d -> P (JDict d)) ->
  forall node, P node.
Proof.
  intros HNone HBool HInt HFloat HStr HList HDict.
  fix IH 1.
  intros [ | b | n | t | s | l | d ].
  - exact HNone.
  - apply HBool.
  - apply HInt.
  - apply HFloat.
  - apply HStr.
  - apply HList. induction l as [ | x l IHl ]; constructor; [ apply IH | exact IHl ].
  - apply HDict. induction d as [ | [k v] d IHd ]; constructor; [ apply IH | exact IHd ].
Qed.

(** ** Facts about the scanner's parts *)

Lemma any_segment_In (s : string) (trail : Trail) :
  any_segment s trail = true <-> In s trail.
Proof.
  unfold any_segment. rewrite existsb_exists. split.
  - intros (x & Hin & Heq). apply String.eqb_eq in Heq. now subst.
  - intros Hin. exists s. split; [ exact Hin | apply String.eqb_refl ].
Qed.

Lemma report_app (node_dict : list (string * json)) trail path results :
  report node_dict trail path results = results ++ report node_dict trail path [].
Proof.
  unfold report.
  destruct (is_not_None _ && _); [ | now rewrite app_nil_r ].
  destruct (any_segment _ _ || _); [ reflexivity | now rewrite app_nil_r ].
Qed.

Lemma for_items_app {X : Type} (body : string -> json -> list X -> list X)
    (out : string -> json -> list X) (items : list (string * json)) :
  Forall (fun kv => forall xs, body (fst kv) (snd kv) xs = xs ++ out (fst kv) (snd kv)) items ->
  forall xs, for_items body items xs
             = xs ++ flat_map (fun kv => out (fst kv) (snd kv)) items.
Proof.
  induction 1 as [ | [key value] rest Hhd _ IH ]; intros xs; simpl.
  - now rewrite app_nil_r.
  - rewrite IH, Hhd. simpl. now rewrite <- app_assoc.
Qed.

Lemma for_enumerate_app {X : Type} (body : nat -> json -> list X -> list X)
    (out : nat -> json -> list X) (node_list : list json) :
  Forall (fun item => forall idx xs, body idx item xs = xs ++ out idx item) node_list ->
  forall idx xs, for_enumerate body idx node_list xs
                 = xs ++ concat (imap (fun i item => out (idx + i)%nat item) node_list).
Proof.
  induction 1 as [ | item rest Hhd _ IH ]; intros idx xs; simpl.
  - now rewrite app_nil_r.
  - rewrite IH, Hhd, Nat.add_0_r, <- app_assoc. do 3 f_equal.
    apply imap_ext. intros i x _. simpl. f_equal. lia.
Qed.

(** [visit] only appends, and what it appends does not depend on what
    [results] already holds. *)
Lemma visit_app (node : json) :
  forall trail path results,
    visit node trail path results = results ++ emitted node trail path.
Proof.
  unfold emitted.
  induction node as [ | b | n | t | s | l IH | d IH ] using json_tree_ind;
    intros trail path results; simpl; try now rewrite app_nil_r.
  - rewrite !(for_enumerate_app _
               (fun idx item => visit item (trail ++ [str_int (Z.of_nat idx)]) path [])).
    + reflexivity.
    + eapply Forall_impl; [ exact IH | ]. intros item Hitem idx xs. apply Hitem.
    + eapply Forall_impl; [ exact IH | ]. intros item Hitem idx xs. apply Hitem.
  - rewrite !(for_items_app _ (fun key value => visit value (trail ++ [key]) path [])).
    + rewrite (report_app _ _ _ results). simpl. now rewrite app_assoc.
    + eapply Forall_impl; [ exact IH | ]. intros kv Hkv xs. apply Hkv.
    + eapply Forall_impl; [ exact IH | ]. intros kv Hkv xs. apply Hkv.
Qed.

Lemma emitted_dict (node_dict : list (string * json)) trail path :
  emitted (JDict node_dict) trail path
  = report node_dict trail path []
    ++ flat_map (fun kv => emitted (snd kv) (trail ++ [fst kv]) path) node_dict.
Proof.
  unfold emitted at 1. simpl.
  rewrite (for_items_app _ (fun key value => emitted value (trail ++ [key]) path)).
  - reflexivity.
  - apply Forall_forall. intros kv _ xs. apply visit_app.
Qed.

Lemma emitted_list (node_list : list json) trail path :
  emitted (JList node_list) trail path
  = concat (imap (fun idx item => emitted item (trail ++ [str_int (Z.of_nat idx)]) path)
              node_list).
Proof.
  unfold emitted at 1. simpl.
  rewrite (for_enumerate_app _
            (fun idx item => emitted item (trail ++ [str_int (Z.of_nat idx)]) path)).
  - reflexivity.
  - apply Forall_forall. intros item _ idx xs. apply visit_app.
Qed.

(** ** Loop invariants *)

Lemma for_items_inv {St : Type} (P : St -> Prop) (body : string -> json -> St -> St)
    (items : list (string * json)) :
  Forall (fun kv => forall st, P st -> P (body (fst kv) (snd kv) st)) items ->
  forall st, P st -> P (for_items body items st).
Proof.
  induction 1 as [ | [key value] rest Hhd _ IH ]; intros st Hst; simpl.
  - exact Hst.
  - apply IH, Hhd, Hst.
Qed.

Lemma for_enumerate_inv {St : Type} (P : St -> Prop) (body : nat -> json -> St -> St)
    (node_list : list json) :
  Forall (fun item => forall idx st, P st -> P (body idx item st)) node_list ->
  forall idx st, P st -> P (for_enumerate body idx node_list st).
Proof.
  induction 1 as [ | item rest Hhd _ IH ]; intros idx st Hst; simpl.
  - exact Hst.
  - apply IH, Hhd, Hst.
Qed.

Lemma report_path (node_dict : list (string * json)) trail path results :
  Forall (fun entry => fst entry = path) results ->
  Forall (fun entry => fst entry = path) (report node_dict trail path results).
Proof.
  intros Hres. unfold report.
  destruct (is_not_None _ && _); [ | exact Hres ].
  destruct (any_segment _ _ || _); [ | exact Hres ].
  apply Forall_app. split; [ exact Hres | ]. repeat constructor.
Qed.

(** Every match a call adds carries the path the call was given. *)
Lemma visit_path (node : json) :
  forall trail path results,
    Forall (fun entry => fst entry = path) results ->
    Forall (fun entry => fst entry = path) (visit node trail path results).
Proof.
  induction node as [ | b | n | t | s | l IH | d IH ] using json_tree_ind;
    intros trail path results Hres; simpl; try exact Hres.
  - apply for_enumerate_inv; [ | exact Hres ].
    eapply Forall_impl; [ exact IH | ]. intros item Hitem idx st Hst. now apply Hitem.
  - apply for_items_inv; [ | now apply report_path ].
    eapply Forall_impl; [ exact IH | ]. intros kv Hkv st Hst. now apply Hkv.
Qed.

Lemma emitted_path (node : json) trail path entry :
  In entry (emitted node trail path) -> fst entry = path.
Proof.
  intros Hin.
  assert (H : Forall (fun entry => fst entry = path) (emitted node trail path))
    by (apply visit_path; constructor).
  rewrite Forall_forall in H. apply H. now apply list_elem_of_In.
Qed.

(** ** Facts about the driver loop *)

Lemma entry_tree_ind (P : entry -> Prop) :
  (forall n load, P (File n load)) ->
  (forall n entries, Forall P entries -> P (Dir n entries)) ->
  forall e, P e.
Proof.
  intros HFile HDir.
  fix IH 1.
  intros [ n load | n entries ].
  - apply HFile.
  - apply HDir. induction entries as [ | e entries IHes ]; constructor;
      [ apply IH | exact IHes ].
Qed.

Lemma endswith_spec (s suffix : string) :
  endswith s suffix = true <-> exists stem, s = stem +:+ suffix.
Proof.
  induction s as [ | c s IH ]; cbn [endswith].
  - rewrite orb_false_r, String.eqb_eq. split.
    + intros <-. now exists "".
    + intros ([ | ? ? ] & Heq); [ exact Heq | discriminate Heq ].
  - rewrite orb_true_iff, String.eqb_eq, IH. split.
    + intros [ <- | (stem & ->) ]; [ now exists "" | now exists (String c stem) ].
    + intros ([ | c' stem ] & Heq).
      * left. exact Heq.
      * right. injection Heq as _ ->. now exists stem.
Qed.

Lemma replace_without_old (old new : ascii) (s : string) :
  old <> new -> ~ In old (list_ascii_of_string (replace old new s)).
Proof.
  intros Hne. unfold replace.
  induction s as [ | c s IH ]; simpl; [ tauto | ].
  intros [ Heq | Hin ]; [ | contradiction ].
  destruct (Ascii.eqb_spec c old); congruence.
Qed.

Lemma replace_without_change (old new : ascii) (s : string) :
  ~ In old (list_ascii_of_string s) -> replace old new s = s.
Proof.
  unfold replace. induction s as [ | c s IH ]; simpl; [ reflexivity | ].
  intros Hnot. destruct (Ascii.eqb_spec c old) as [ -> | _ ]; [ tauto | ].
  f_equal. tauto.
Qed.

Lemma name_snoc (dir : Path) (n : string) : name (dir ++ [n]) = n.
Proof. unfold name. apply last_last. Qed.

Lemma selected_app host dir (entries1 entries2 : list entry) :
  selected host dir (entries1 ++ entries2)
  = selected host dir entries1 ++ selected host dir entries2.
Proof. unfold selected. apply flat_map_app. Qed.

Lemma in_selected host dir entries file load :
  In (file, load) (selected host dir entries) ->
  exists e, In e entries /\ file = dir ++ [entry_name e] /\ load = entry_load e
            /\ glob_json host (entry_name e) = true.
Proof.
  unfold selected. rewrite in_flat_map. intros (e & He & Hin).
  destruct (glob_json host (entry_name e)) eqn:Hglob; simpl in Hin; [ | tauto ].
  destruct Hin as [ Heq | [] ]. injection Heq as <- <-.
  exists e. tauto.
Qed.

Lemma in_below host (e : entry) :
  forall dir file load,
    In (file, load) (below host dir e) ->
    exists parent n, file = (dir ++ parent) ++ [n] /\ glob_json host n = true.
Proof.
  induction e as [ n load' | n entries IH ] using entry_tree_ind;
    intros dir file load Hin; simpl in Hin; [ tauto | ].
  apply in_app_or in Hin. destruct Hin as [ Hin | Hin ].
  - apply in_selected in Hin. destruct Hin as (e & _ & -> & _ & Hglob).
    exists [n], (entry_name e). split; [ reflexivity | exact Hglob ].
  - apply in_flat_map in Hin. destruct Hin as (e & He & Hin).
    rewrite Forall_forall in IH.
    destruct (IH e (proj2 (list_elem_of_In _ _) He) _ _ _ Hin)
      as (parent & n' & -> & Hglob).
    exists (n :: parent), n'. split; [ | exact Hglob ].
    f_equal. now rewrite <- app_assoc.
Qed.

(** Whatever the pattern selects lies under the directory walked and has a
    name the pattern matches. *)
Lemma in_rglob host dir entries file load :
  In (file, load) (rglob host dir entries) ->
  exists parent n, file = (dir ++ parent) ++ [n] /\ glob_json host n = true.
Proof.
  unfold rglob. intros Hin. apply in_app_or in Hin. destruct Hin as [ Hin | Hin ].
  - apply in_selected in Hin. destruct Hin as (e & _ & -> & _ & Hglob).
    exists [], (entry_name e). rewrite app_nil_r. tauto.
  - apply in_flat_map in Hin. destruct Hin as (e & _ & Hin).
    eapply in_below, Hin.
Qed.

Lemma scan_file_app host results file :
  scan_file host results file = results ++ scan_file host [] file.
Proof.
  unfold scan_file.
  destruct (String.eqb _ _); [ now rewrite app_nil_r | ].
  destruct (snd file); [ apply visit_app | now rewrite app_nil_r ].
Qed.

Lemma fold_scan_file host (files : list (Path * option json)) :
  forall results,
    fold_left (scan_file host) files results
    = results ++ flat_map (scan_file host []) files.
Proof.
  induction files as [ | file files IH ]; intros results; simpl.
  - now rewrite app_nil_r.
  - rewrite IH, (scan_file_app host results). now rewrite <- app_assoc.
Qed.

(** A file the loop body passes over can be left out of the enumeration. *)
Lemma fold_scan_file_skip host files1 files2 file results :
  scan_file host [] file = [] ->
  fold_left (scan_file host) (files1 ++ file :: files2) results
  = fold_left (scan_file host) (files1 ++ files2) results.
Proof.
  intros Hskip. rewrite !fold_scan_file, !flat_map_app. simpl.
  now rewrite Hskip.
Qed.

Lemma scan_file_unparseable host file :
  scan_file host [] (file, None) = [].
Proof. unfold scan_file. simpl. now destruct (String.eqb _ _). Qed.

Lemma scan_file_index host file load :
  name file = "index.json" -> scan_file host [] (file, load) = [].
Proof. unfold scan_file. simpl. now intros ->. Qed.

(** Taking one file out of the directory walked takes at most its own path
    out of the enumeration. *)
Lemma scan_without_file host entries1 entries2 n load results :
  scan_file host [] (BASE_DIR ++ [n], load) = [] ->
  scan host (Some (entries1 ++ File n load :: entries2)) results
  = scan host (Some (entries1 ++ entries2)) results.
Proof.
  intros Hskip. unfold scan, rglob.
  rewrite !fold_scan_file. f_equal.
  rewrite !selected_app, !flat_map_app. simpl.
  rewrite !flat_map_app. f_equal. f_equal.
  unfold selected at 2. simpl in Hskip |- *.
  destruct (glob_json host n); simpl; [ | reflexivity ].
  now rewrite Hskip.
Qed.

(** ** Facts about the recursion limit *)





(** ** Facts about the list objects *)

Lemma extends_refl (st : Heap.state) : extends st st [] [].
Proof.
  split; [ reflexivity | ]. split; [ now rewrite app_nil_r | ].
  exists []. rewrite app_nil_r. repeat split; constructor.
Qed.

Lemma extends_trans (st1 st2 st3 : Heap.state) out1 out2 trails1 trails2 :
  extends st1 st2 out1 trails1 ->
  extends st2 st3 out2 trails2 ->
  extends st1 st3 (out1 ++ out2) (trails1 ++ trails2).
Proof.
  intros (Hsub1 & Hres1 & refs1 & Hent1 & Hnd1 & Hnew1 & Hget1)
         (Hsub2 & Hres2 & refs2 & Hent2 & Hnd2 & Hnew2 & Hget2).
  split; [ now transitivity (Heap.lists st2) | ].
  split; [ now rewrite Hres2, Hres1, app_assoc | ].
  exists (refs1 ++ refs2).
  split; [ now rewrite Hent2, Hent1, app_assoc | ].
  split; [ | split ].
  - apply NoDup_app. split; [ exact Hnd1 | ]. split; [ | exact Hnd2 ].
    intros ref Hin1 Hin2.
    rewrite Forall_forall in Hnew2. specialize (Hnew2 ref Hin2).
    apply list_elem_of_lookup in Hin1. destruct Hin1 as [i Hi].
    destruct (Forall2_lookup_l _ _ _ _ _ Hget1 Hi) as (items & _ & Hitems).
    congruence.
  - apply Forall_app. split; [ exact Hnew1 | ].
    eapply Forall_impl; [ exact Hnew2 | ]. intros ref Hnone.
    exact (lookup_weaken_None _ _ _ Hnone Hsub1).
  - apply Forall2_app; [ | exact Hget2 ].
    eapply Forall2_impl; [ exact Hget1 | ]. intros ref items Hsome.
    exact (lookup_weaken _ _ _ _ Hsome Hsub2).
Qed.

Lemma new_list_spec (items : Trail) (lists : gmap nat Trail) :
  lists !! fst (Heap.new_list items lists) = None
  /\ snd (Heap.new_list items lists) !! fst (Heap.new_list items lists) = Some items
  /\ lists ⊆ snd (Heap.new_list items lists).
Proof.
  unfold Heap.new_list. simpl.
  assert (Hfresh : lists !! fresh (dom lists) = None)
    by (apply not_elem_of_dom, is_fresh).
  split; [ exact Hfresh | ].
  split; [ apply lookup_insert_eq | now apply insert_subseteq ].
Qed.

Lemma read_lookup (lists : gmap nat Trail) (ref : nat) (items : Trail) :
  lists !! ref = Some items -> Heap.read lists ref = items.
Proof. unfold Heap.read. now intros ->. Qed.

(** [trail + [segment]] makes a new object that holds the old items and the
    segment, and leaves every object there was as it was. *)
Lemma plus_spec (trail : nat) (items : Trail) (segment : string) (lists : gmap nat Trail) :
  lists !! trail = Some items ->
  lists !! fst (Heap.plus trail segment lists) = None
  /\ snd (Heap.plus trail segment lists) !! fst (Heap.plus trail segment lists)
     = Some (items ++ [segment])
  /\ lists ⊆ snd (Heap.plus trail segment lists).
Proof.
  intros Hget. unfold Heap.plus. rewrite (read_lookup _ _ _ Hget).
  apply new_list_spec.
Qed.

Lemma heap_report_spec (node_dict : list (string * json)) trail items path st :
  Heap.lists st !! trail = Some items ->
  extends st (Heap.report node_dict trail path st) (report node_dict items path []) [].
Proof.
  intros Hget. unfold Heap.report, report.
  rewrite (read_lookup _ _ _ Hget).
  destruct (is_not_None _ && _); [ | apply extends_refl ].
  destruct (any_segment _ _ || _); [ | apply extends_refl ].
  destruct (plus_spec trail items (str (dict_get "Name" node_dict)) _ Hget)
    as (_ & Hnew & Hsub).
  destruct (Heap.plus trail (str (dict_get "Name" node_dict)) (Heap.lists st))
    as [extended lists'].
  simpl in Hnew, Hsub. rewrite (read_lookup _ _ _ Hnew). simpl.
  split; [ exact Hsub | ]. split; [ reflexivity | ].
  exists []. rewrite app_nil_r. repeat split; constructor.
Qed.

Lemma descend_spec (value : json) (trail : nat) (items : Trail) (segment path : string)
    (st : Heap.state) :
  (forall child st1, Heap.lists st1 !! child = Some (items ++ [segment]) ->
                     visit_spec value child (items ++ [segment]) path st1) ->
  Heap.lists st !! trail = Some items ->
  extends st (Heap.descend (Heap.visit value) trail segment path st)
    (emitted value (items ++ [segment]) path) (trails value (items ++ [segment])).
Proof.
  intros Hcallee Hget. unfold Heap.descend.
  destruct (plus_spec trail items segment _ Hget) as (Hfresh & Hnew & Hsub).
  destruct (Heap.plus trail segment (Heap.lists st)) as [child lists'].
  simpl in Hfresh, Hnew, Hsub.
  destruct (Hcallee child (Heap.State lists' (Heap.results st) (Heap.entered st)) Hnew)
    as (Hsub' & Hres & refs & Hent & Hnd & Hnone & Hall).
  simpl in Hsub', Hres, Hent, Hnone.
  split; [ now transitivity lists' | ]. split; [ exact Hres | ].
  exists (child :: refs). split; [ exact Hent | ].
  split; [ | split; [ | exact Hall ] ].
  - constructor; [ | exact Hnd ]. intros Hin.
    rewrite Forall_forall in Hnone. specialize (Hnone child Hin). congruence.
  - constructor; [ exact Hfresh | ].
    eapply Forall_impl; [ exact Hnone | ]. intros ref Href.
    exact (lookup_weaken_None _ _ _ Href Hsub).
Qed.

Lemma extends_lookup (st st' : Heap.state) out new_trails ref items :
  extends st st' out new_trails ->
  Heap.lists st !! ref = Some items -> Heap.lists st' !! ref = Some items.
Proof. intros (Hsub & _) Hget. eapply lookup_weaken; eassumption. Qed.

Lemma heap_for_items (trail : nat) (items : Trail) (path : string)
    (node_dict : list (string * json)) :
  Forall (fun kv => forall trail items path st,
            Heap.lists st !! trail = Some items ->
            visit_spec (snd kv) trail items path st) node_dict ->
  forall st,
    Heap.lists st !! trail = Some items ->
    extends st
      (for_items (fun key value => Heap.descend (Heap.visit value) trail (str (JStr key)) path)
         node_dict st)
      (flat_map (fun kv => emitted (snd kv) (items ++ [fst kv]) path) node_dict)
      (flat_map (fun kv => trails (snd kv) (items ++ [fst kv])) node_dict).
Proof.
  induction 1 as [ | [key value] rest Hhd _ IH ]; intros st Hget; simpl.
  - apply extends_refl.
  - assert (Hstep : extends st
                      (Heap.descend (Heap.visit value) trail key path st)
                      (emitted value (items ++ [key]) path)
                      (trails value (items ++ [key]))).
    { apply descend_spec; [ | exact Hget ]. intros child st1 Hchild. now apply Hhd. }
    eapply extends_trans; [ exact Hstep | ].
    apply IH. eapply extends_lookup; eassumption.
Qed.

Lemma heap_for_enumerate (trail : nat) (items : Trail) (path : string)
    (node_list : list json) :
  Forall (fun item => forall trail items path st,
            Heap.lists st !! trail = Some items ->
            visit_spec item trail items path st) node_list ->
  forall idx st,
    Heap.lists st !! trail = Some items ->
    extends st
      (for_enumerate
         (fun idx item => Heap.descend (Heap.visit item) trail (str_int (Z.of_nat idx)) path)
         idx node_list st)
      (concat (imap (fun i item =>
                       emitted item (items ++ [str_int (Z.of_nat (idx + i))]) path)
                 node_list))
      (concat (imap (fun i item => trails item (items ++ [str_int (Z.of_nat (idx + i))]))
                 node_list)).
Proof.
  induction 1 as [ | item rest Hhd _ IH ]; intros idx st Hget; simpl.
  - apply extends_refl.
  - rewrite Nat.add_0_r.
    assert (Hstep : extends st
                      (Heap.descend (Heap.visit item) trail (str_int (Z.of_nat idx)) path st)
                      (emitted item (items ++ [str_int (Z.of_nat idx)]) path)
                      (trails item (items ++ [str_int (Z.of_nat idx)]))).
    { apply descend_spec; [ | exact Hget ]. intros child st1 Hchild. now apply Hhd. }
    eapply extends_trans; [ exact Hstep | ].
    specialize (IH (S idx) _ (extends_lookup _ _ _ _ _ _ Hstep Hget)).
    erewrite (imap_ext _ (fun i item => emitted item _ path)),
             (imap_ext _ (fun i item => trails item _)); [ exact IH | | ];
      intros i x _; simpl; do 4 f_equal; lia.
Qed.

Lemma trails_dict (node_dict : list (string * json)) (trail : Trail) :
  trails (JDict node_dict) trail
  = trail :: flat_map (fun kv => trails (snd kv) (trail ++ [fst kv])) node_dict.
Proof.
  simpl. rewrite (for_items_app _ (fun key value => trails value (trail ++ [key]))).
  - reflexivity.
  - apply Forall_forall. intros kv _ xs. reflexivity.
Qed.

Lemma trails_list (node_list : list json) (trail : Trail) :
  trails (JList node_list) trail
  = trail :: concat (imap (fun idx item => trails item (trail ++ [str_int (Z.of_nat idx)]))
                       node_list).
Proof.
  simpl.
  rewrite (for_enumerate_app _
             (fun idx item => trails item (trail ++ [str_int (Z.of_nat idx)]))).
  - reflexivity.
  - apply Forall_forall. intros item _ idx xs. reflexivity.
Qed.

(** Entering a call records its trail; the rest is the loop. *)
Lemma visit_spec_of_extends (node : json) trail items path st out sub :
  Heap.lists st !! trail = Some items ->
  extends (Heap.State (Heap.lists st) (Heap.results st) (Heap.entered st ++ [trail]))
    (Heap.visit node trail path st) out sub ->
  emitted node items path = out ->
  trails node items = items :: sub ->
  visit_spec node trail items path st.
Proof.
  intros Hget (Hsub & Hres & refs & Hent & Hnd & Hnone & Hall) <- Htrails.
  simpl in Hsub, Hres, Hent, Hnone.
  unfold visit_spec. cbv zeta.
  split; [ exact Hsub | ]. split; [ exact Hres | ].
  exists refs. split; [ now rewrite Hent, <- app_assoc | ].
  split; [ exact Hnd | ]. split; [ exact Hnone | ].
  rewrite Htrails. constructor; [ | exact Hall ].
  eapply lookup_weaken; eassumption.
Qed.

Lemma heap_visit_spec (node : json) :
  forall trail items path st,
    Heap.lists st !! trail = Some items ->
    visit_spec node trail items path st.
Proof.
  induction node as [ | b | n | t | s | l IH | d IH ] using json_tree_ind;
    intros trail items path st Hget.
  1-5: (eapply visit_spec_of_extends;
        [ exact Hget | apply extends_refl | reflexivity | reflexivity ]).
  - eapply visit_spec_of_extends; [ exact Hget | | apply emitted_list | apply trails_list ].
    apply (heap_for_enumerate trail items path l IH 0%nat). exact Hget.
  - pose (st0 := Heap.State (Heap.lists st) (Heap.results st) (Heap.entered st ++ [trail])).
    assert (Hrep := heap_report_spec d trail items path st0 Hget).
    assert (Hloop := heap_for_items trail items path d IH _
                       (extends_lookup _ _ _ _ _ _ Hrep Hget)).
    eapply visit_spec_of_extends; [ exact Hget | | | ].
    + exact (extends_trans _ _ _ _ _ _ _ Hrep Hloop).
    + apply emitted_dict.
    + exact (trails_dict d items).
Qed.

(** * The scanner's match test *)

Lemma ancestry_test (trail : Trail) :
  any_segment "Columns" trail || any_segment "Parameters" trail = true
  <-> under_Columns_or_Parameters trail.
Proof.
  unfold under_Columns_or_Parameters.
  rewrite orb_true_iff, !any_segment_In. reflexivity.
Qed.

Lemma shape_test (node_dict : list (string * json)) :
  is_not_None (dict_get "Name" node_dict) && (length node_dict =? 1)%nat = true
  <-> exists value, sole_Name node_dict value /\ value <> JNone.
Proof.
  unfold sole_Name. rewrite andb_true_iff, Nat.eqb_eq. split.
  - intros [Hname Hlen].
    destruct node_dict as [ | [key value] [ | ? ? ] ]; try discriminate.
    unfold dict_get in Hname. simpl in Hname.
    destruct (String.eqb_spec key "Name") as [ -> | _ ]; [ | discriminate ].
    exists value. split; [ reflexivity | ]. intros ->. discriminate.
  - intros (value & -> & Hvalue). split; [ | reflexivity ].
    unfold dict_get. simpl. now destruct value.
Qed.

Lemma report_cases (node_dict : list (string * json)) trail path results :
  ((exists value, sole_Name node_dict value /\ value <> JNone)
   /\ under_Columns_or_Parameters trail
   /\ report node_dict trail path results
      = results ++ [(path, join (trail ++ [str (dict_get "Name" node_dict)]))])
  \/ (~ ((exists value, sole_Name node_dict value /\ value <> JNone)
         /\ under_Columns_or_Parameters trail)
      /\ report node_dict trail path results = results).
Proof.
  unfold report.
  destruct (is_not_None _ && _) eqn:Hshape.
  - destruct (any_segment _ _ || _) eqn:Hanc.
    + left. split; [ now apply shape_test | ]. split; [ now apply ancestry_test | reflexivity ].
    + right. split; [ | reflexivity ]. intros [_ Hu%ancestry_test]. congruence.
  - right. split; [ | reflexivity ]. intros [Hs%shape_test _]. congruence.
Qed.

Lemma snoc_neq {A : Type} (xs : list A) (x : A) : xs ++ [x] <> xs.
Proof.
  intros Heq. apply (f_equal (@length A)) in Heq.
  rewrite length_app in Heq. simpl in Heq. lia.
Qed.

(** C1, as the code has it: an object node adds a match for itself exactly
    when it holds one item, the key of that item is [Name], its value is
    not null, and some segment of the trail equals [Columns] or [Parameters];
    the match is the path with the trail extended by the value's text.
    Whatever the node, the scan then goes on into its items. *)
Theorem match_iff_sole_Name_under_ancestor
    (node_dict : list (string * json)) (trail : Trail) (path : string)
    (results : list ResultEntry) :
  visit (JDict node_dict) trail path results
  = report node_dict trail path results
    ++ flat_map (fun kv => emitted (snd kv) (trail ++ [fst kv]) path) node_dict
  /\ (report node_dict trail path results
      = results ++ [(path, join (trail ++ [str (dict_get "Name" node_dict)]))]
      <-> (exists value, sole_Name node_dict value /\ value <> JNone)
          /\ under_Columns_or_Parameters trail)
  /\ (report node_dict trail path results = results
      <-> ~ ((exists value, sole_Name node_dict value /\ value <> JNone)
             /\ under_Columns_or_Parameters trail)).
Proof.
  split.
  - rewrite visit_app, emitted_dict, app_assoc, <- report_app. reflexivity.
  - destruct (report_cases node_dict trail path results)
      as [ (Hs & Hu & ->) | (Hn & ->) ].
    + split; [ tauto | ]. split; [ | tauto ].
      intros Heq. now apply snoc_neq in Heq.
    + split; [ | tauto ]. split; [ | tauto ].
      intros Heq. symmetry in Heq. now apply snoc_neq in Heq.
Qed.

(** C1 as written fails: an object whose one key is [Name], with the value
    null, below [Columns], adds no match. *)
Lemma sole_Name_null_adds_no_match :
  sole_Name [("Name", JNone)] JNone
  /\ length [("Name", JNone)] = 1%nat
  /\ under_Columns_or_Parameters ["Columns"; "0"]
  /\ report [("Name", JNone)] ["Columns"; "0"] "debug/.xtraq/a.json" [] = []
  /\ visit (JDict [("Name", JNone)]) ["Columns"; "0"] "debug/.xtraq/a.json" [] = [].
Proof.
  repeat split. left. simpl. auto.
Qed.

(** Scenarios B and C: no [Columns] or [Parameters] above the node, and two
    keys in the node. *)
Example scenario_B_no_match (path : string) : visit scenario_B [] path [] = [].
Proof. reflexivity. Qed.

Example scenario_C_no_match (path : string) : visit scenario_C [] path [] = [].
Proof. reflexivity. Qed.

(** * Scenario A *)

(** C2, as the code has it: scanning [{"Columns":[{"Name":"id"}]}] from an
    empty trail adds exactly one match, and its trail is [Columns/0/id]. *)
Theorem scenario_A_one_match (path : string) (results : list ResultEntry) :
  visit scenario_A [] path results = results ++ [(path, "Columns/0/id")].
Proof.
  rewrite visit_app. reflexivity.
Qed.

(** C2 as written fails: the trail reported for scenario A is not
    [Columns/0/Name/id]. *)
Lemma scenario_A_trail_has_no_Name_segment :
  visit scenario_A [] "debug/.xtraq/a.json" []
  = [("debug/.xtraq/a.json", "Columns/0/id")]
  /\ visit scenario_A [] "debug/.xtraq/a.json" []
     <> [("debug/.xtraq/a.json", "Columns/0/Name/id")].
Proof.
  split; [ reflexivity | discriminate ].
Qed.

(** * The text of the [Name] value *)

(** C3, as the code has it: below [Columns] or [Parameters], an object that
    holds only [Name] with a string, a number or a boolean adds one match,
    whose last segment is the value's text (the string itself, the decimal
    digits, [True] or [False]); with null it adds none. *)
Theorem scalar_Name_text_is_last_segment
    (value : json) (trail : Trail) (path : string) (results : list ResultEntry) :
  under_Columns_or_Parameters trail ->
  match value with
  | JNone => visit (JDict [("Name", value)]) trail path results = results
  | JStr s =>
      visit (JDict [("Name", value)]) trail path results
      = results ++ [(path, join (trail ++ [s]))]
  | JInt n =>
      visit (JDict [("Name", value)]) trail path results
      = results ++ [(path, join (trail ++ [str_int n]))]
  | JFloat text =>
      visit (JDict [("Name", value)]) trail path results
      = results ++ [(path, join (trail ++ [text]))]
  | JBool b =>
      visit (JDict [("Name", value)]) trail path results
      = results ++ [(path, join (trail ++ [if b then "True" else "False"]))]
  | JList _ | JDict _ => True
  end.
Proof.
  intros Hu%ancestry_test.
  destruct value as [ | [ | ] | n | t | s | l | d ]; try exact I;
    simpl; unfold report, dict_get; simpl; rewrite ?Hu; reflexivity.
Qed.

Lemma scalar_Name_text_examples :
  under_Columns_or_Parameters ["Parameters"]
  /\ visit (JDict [("Name", JInt (-42))]) ["Parameters"] "debug/.xtraq/p.json" []
     = [("debug/.xtraq/p.json", "Parameters/-42")].
Proof.
  assert (Hu : under_Columns_or_Parameters ["Parameters"]) by (right; simpl; auto).
  split; [ exact Hu | ].
  exact (scalar_Name_text_is_last_segment (JInt (-42)) ["Parameters"]
           "debug/.xtraq/p.json" [] Hu).
Defined.

(** C3 as written fails: [{"Name": null}] below [Parameters] is not
    reported. *)
Lemma Name_null_is_not_reported :
  under_Columns_or_Parameters ["Parameters"; "p1"]
  /\ visit (JDict [("Name", JNone)]) ["Parameters"; "p1"] "debug/.xtraq/p.json" [] = [].
Proof.
  split; [ left + right; simpl; tauto | reflexivity ].
Qed.

Lemma repr_char_plain (c : ascii) :
  plain_char c = true ->
  repr_char "'" c = String c "" /\ Ascii.eqb "'" c = false.
Proof.
  destruct c as [[ | ] [ | ] [ | ] [ | ] [ | ] [ | ] [ | ] [ | ]];
    vm_compute; intros Hplain; (split; reflexivity) || discriminate Hplain.
Qed.

Lemma concat_of_characters (chars : list ascii) :
  String.concat "" (map (fun c => String c "") chars) = string_of_list_ascii chars.
Proof.
  induction chars as [ | c chars IH ]; [ reflexivity | ].
  destruct chars as [ | c' chars ]; [ reflexivity | ].
  change (String.concat "" (map (fun c => String c "") (c :: c' :: chars)))
    with (String c (String.concat "" (map (fun c => String c "") (c' :: chars)))).
  rewrite IH. reflexivity.
Qed.

(** Between single quotes a text of plain characters is copied as it is. *)
Lemma repr_str_plain (s : string) :
  plain s -> repr_str s = String "'" (s +:+ "'").
Proof.
  unfold plain, repr_str, contains_char. intros Hplain.
  rewrite forallb_forall in Hplain.
  assert (Hquote : existsb (Ascii.eqb "'") (list_ascii_of_string s) = false).
  { destruct (existsb _ _) eqn:Hex; [ | reflexivity ].
    apply existsb_exists in Hex. destruct Hex as (c & Hin & Heq).
    destruct (repr_char_plain c (Hplain c Hin)) as [_ Hne]. congruence. }
  rewrite Hquote. simpl andb. cbv iota.
  rewrite (map_ext_in _ (fun c => String c "")), concat_of_characters,
    string_of_list_ascii_of_string; [ reflexivity | ].
  intros c Hin. apply repr_char_plain, Hplain, Hin.
Qed.

(** C10: below [Columns] or [Parameters], an object that holds only [Name]
    with a list or an object as value still adds a match, and the scan then
    goes on into the container.  The last segment of the match is the text
    Python writes for the container: the texts of the elements between
    brackets, or of the keys and values between braces, with a comma and a
    space between them and a colon and a space after a key; an element is
    written [None], [True], [False], its digits, or its text between
    quotes, plain characters as they are and the others escaped; so
    [{"Name": {"a": 1}}] is reported with [{'a': 1}]. *)
Theorem container_Name_is_reported
    (value : json) (trail : Trail) (path : string) (results : list ResultEntry) :
  under_Columns_or_Parameters trail ->
  (exists node_list, value = JList node_list) \/ (exists node_dict, value = JDict node_dict) ->
  visit (JDict [("Name", value)]) trail path results
  = results
    ++ (path,
        join (trail
              ++ [match value with
                  | JList node_list =>
                      "[" +:+ String.concat ", " (map repr node_list) +:+ "]"
                  | JDict node_dict =>
                      "{" +:+ String.concat ", "
                                (map (fun kv => repr_str (fst kv) +:+ ": " +:+ repr (snd kv))
                                   node_dict)
                          +:+ "}"
                  | _ => ""
                  end]))
       :: emitted value (trail ++ ["Name"]) path
  /\ (forall element : json,
        repr element
        = match element with
          | JNone => "None"
          | JBool b => if b then "True" else "False"
          | JInt n => str_int n
          | JFloat text => text
          | JStr s => repr_str s
          | JList node_list =>
              "[" +:+ String.concat ", " (map repr node_list) +:+ "]"
          | JDict node_dict =>
              "{" +:+ String.concat ", "
                        (map (fun kv => repr_str (fst kv) +:+ ": " +:+ repr (snd kv))
                           node_dict)
                  +:+ "}"
          end)
  /\ (forall s : string, plain s -> repr_str s = String "'" (s +:+ "'"))
  /\ repr_str "it's" = String "034" ("it's" +:+ String "034" "")
  /\ repr_str (String "034" "a'b") = String "'" (String "034" "a\'b'")
  /\ repr_str (string_of_list_ascii
                 (map ascii_of_nat
                    [92; 10; 13; 9; 1; 11; 12; 14; 29; 31; 127; 130; 147; 148; 133; 150;
                     154; 160; 173; 233; 97]%nat))
     = "'\\\n\r\t\x01\x0b\x0c\x0e\x1d\x1f\x7f\x82\x93\x94\x85\x96\x9a\xa0\xad"
       +:+ String "233" "a'"
  /\ str (JList [JNone; JBool true; JBool false; JInt 0; JInt (-12); JFloat "1.5";
                 JStr "id"; JList []; JDict [];
                 JDict [("k", JList [JStr "v"; JInt 2]); ("n", JNone)]])
     = "[None, True, False, 0, -12, 1.5, 'id', [], {}, {'k': ['v', 2], 'n': None}]"
  /\ str (JDict [("a", JInt 1)]) = "{'a': 1}".
Proof.
  intros Hu%ancestry_test Hcontainer.
  split.
  { rewrite visit_app, emitted_dict. f_equal. simpl. rewrite app_nil_r.
    unfold report, dict_get. simpl. rewrite Hu.
    destruct Hcontainer as [ [l ->] | [d ->] ]; reflexivity. }
  split; [ intros [ | [ | ] | n | t | s | l | d ]; reflexivity | ].
  split; [ exact repr_str_plain | ].
  repeat split; vm_compute; reflexivity.
Qed.

Lemma container_Name_example :
  under_Columns_or_Parameters ["Columns"; "0"]
  /\ ((exists node_list, JDict [("a", JInt 1)] = JList node_list)
      \/ (exists node_dict, JDict [("a", JInt 1)] = JDict node_dict))
  /\ visit (JDict [("Name", JDict [("a", JInt 1)])]) ["Columns"; "0"] "debug/.xtraq/a.json" []
     = [("debug/.xtraq/a.json", "Columns/0/{'a': 1}")].
Proof.
  assert (Hu : under_Columns_or_Parameters ["Columns"; "0"]) by (left; simpl; auto).
  assert (Hc : (exists node_list, JDict [("a", JInt 1)] = JList node_list)
               \/ (exists node_dict, JDict [("a", JInt 1)] = JDict node_dict))
    by (right; eexists; reflexivity).
  split; [ exact Hu | ]. split; [ exact Hc | ].
  exact (proj1 (container_Name_is_reported (JDict [("a", JInt 1)]) ["Columns"; "0"]
                  "debug/.xtraq/a.json" [] Hu Hc)).
Defined.

(** * The driver loop *)

Lemma main_without_file host entries1 entries2 n load :
  scan_file host [] (BASE_DIR ++ [n], load) = [] ->
  main host (Some (entries1 ++ File n load :: entries2))
  = main host (Some (entries1 ++ entries2)).
Proof.
  intros Hskip. unfold main. now rewrite scan_without_file.
Qed.

Lemma scan_one_file host n data :
  glob_json host n = true ->
  n <> "index.json" ->
  scan host (Some [File n (Some data)]) []
  = emitted data [] (replace "\" "/" (str_path host (BASE_DIR ++ [n]))).
Proof.
  intros Hglob Hname. apply String.eqb_neq in Hname.
  unfold scan, rglob, selected. simpl. rewrite Hglob. simpl.
  unfold scan_file, name. simpl. now rewrite Hname.
Qed.

(** C4: a file that does not load adds no match and stops nothing: the
    loop goes on as if the file were not there, and so does the report.
    With one such file next to a valid file that holds one match, the run
    reports that one match and the total 1, in either order of the two. *)
Theorem unparseable_file_is_skipped (host : flavour) :
  (forall files1 file files2 results,
     fold_left (scan_file host) (files1 ++ (file, None) :: files2) results
     = fold_left (scan_file host) (files1 ++ files2) results)
  /\ (forall entries1 n entries2,
        main host (Some (entries1 ++ File n None :: entries2))
        = main host (Some (entries1 ++ entries2)))
  /\ (forall bad good data found,
        glob_json host good = true ->
        good <> "index.json" ->
        emitted data [] (replace "\" "/" (str_path host (BASE_DIR ++ [good]))) = [found] ->
        main host (Some [File bad None; File good (Some data)])
        = ([found], [fst found +:+ ": " +:+ snd found; "Total: 1"])
        /\ main host (Some [File good (Some data); File bad None])
           = ([found], [fst found +:+ ": " +:+ snd found; "Total: 1"])).
Proof.
  split; [ | split ].
  - intros files1 file files2 results.
    apply fold_scan_file_skip, scan_file_unparseable.
  - intros entries1 n entries2.
    apply main_without_file, scan_file_unparseable.
  - intros bad good data found Hglob Hname Hone.
    assert (Hgood : main host (Some [File good (Some data)])
                    = ([found], [fst found +:+ ": " +:+ snd found; "Total: 1"])).
    { unfold main. rewrite (scan_one_file host good data Hglob Hname), Hone.
      reflexivity. }
    split.
    + etransitivity; [ | exact Hgood ].
      exact (main_without_file host [] [File good (Some data)] bad None
               (scan_file_unparseable _ _)).
    + etransitivity; [ | exact Hgood ].
      exact (main_without_file host [File good (Some data)] [] bad None
               (scan_file_unparseable _ _)).
Qed.

Lemma unparseable_next_to_scenario_A :
  main Posix (Some [File "broken.json" None; File "table.json" (Some scenario_A)])
  = ([("debug/.xtraq/table.json", "Columns/0/id")],
     ["debug/.xtraq/table.json: Columns/0/id"; "Total: 1"]).
Proof.
  refine (proj1 (proj2 (proj2 (unparseable_file_is_skipped Posix))
                   "broken.json" "table.json" scenario_A
                   ("debug/.xtraq/table.json", "Columns/0/id") _ _ _)).
  - reflexivity.
  - discriminate.
  - reflexivity.
Defined.

(** C8: when [BASE_DIR] does not exist the loop is not entered: no file is
    read, [results] stays as it is, and the run prints only [Total: 0]. *)
Theorem missing_base_dir_reports_zero (host : flavour) :
  main host None = ([], ["Total: 0"])
  /\ forall results, scan host None results = results.
Proof.
  split; reflexivity.
Qed.

(** C9: every match of a run comes from a path the pattern [*.json]
    selected under [BASE_DIR] whose name ends with [.json] (in any letter
    case where the host ignores case) and is not [index.json]; the path in
    the match is [str] of that path with every backslash turned into a
    slash, so it holds no backslash on any host, and it is [str] of the
    path as it is when that has none.  A file named [index.json] adds
    nothing, whatever it holds. *)
Theorem only_json_files_but_index_are_scanned (host : flavour) (entries : list entry) :
  (forall path location,
     In (path, location) (fst (main host (Some entries))) ->
     exists file data,
       In (file, Some data) (rglob host BASE_DIR entries)
       /\ (exists stem,
             match host with
             | Posix => name file
             | Windows => map_chars lower_char (name file)
             end = stem +:+ ".json")
       /\ name file <> "index.json"
       /\ path = replace "\" "/" (str_path host file)
       /\ ~ In "\"%char (list_ascii_of_string path)
       /\ (~ In "\"%char (list_ascii_of_string (str_path host file)) ->
           path = str_path host file)
       /\ In (path, location) (emitted data [] path))
  /\ (forall files1 file load files2 results,
        name file = "index.json" ->
        fold_left (scan_file host) (files1 ++ (file, load) :: files2) results
        = fold_left (scan_file host) (files1 ++ files2) results)
  /\ (forall entries1 load entries2,
        main host (Some (entries1 ++ File "index.json" load :: entries2))
        = main host (Some (entries1 ++ entries2))).
Proof.
  split; [ | split ].
  - intros path location Hin. unfold main, scan in Hin. simpl in Hin.
    rewrite fold_scan_file in Hin. simpl in Hin.
    apply in_flat_map in Hin. destruct Hin as ([file load] & Hfile & Hin).
    unfold scan_file in Hin. simpl in Hin.
    destruct (String.eqb_spec (name file) "index.json") as [ | Hname ];
      [ contradiction | ].
    destruct load as [ data | ]; [ | contradiction ].
    pose proof (emitted_path _ _ _ _ Hin) as Hpath. simpl in Hpath. subst path.
    exists file, data. split; [ exact Hfile | ].
    split.
    { destruct (in_rglob _ _ _ _ _ Hfile) as (parent & n & -> & Hglob).
      rewrite name_snoc. destruct host; now apply endswith_spec. }
    split; [ exact Hname | ]. split; [ reflexivity | ].
    split; [ now apply replace_without_old | ].
    split; [ apply replace_without_change | exact Hin ].
  - intros files1 file load files2 results Hname.
    now apply fold_scan_file_skip, scan_file_index.
  - intros entries1 load entries2.
    apply main_without_file, scan_file_index, name_snoc.
Qed.

Lemma windows_match_has_slashes :
  In ("debug/.xtraq/sub/A.JSON", "Parameters/1/5")
    (fst (main Windows
            (Some [File "index.json" (Some scenario_A);
                   File "notes.txt" (Some scenario_A);
                   Dir "sub"
                     [File "A.JSON"
                        (Some (JDict [("Parameters",
                                       JList [JInt 3; JDict [("Name", JInt 5)]])]))]])))
  /\ exists file data,
       name file <> "index.json"
       /\ "debug/.xtraq/sub/A.JSON" = replace "\" "/" (str_path Windows file)
       /\ In ("debug/.xtraq/sub/A.JSON", "Parameters/1/5")
            (emitted data [] "debug/.xtraq/sub/A.JSON").
Proof.
  assert (Hin : In ("debug/.xtraq/sub/A.JSON", "Parameters/1/5")
    (fst (main Windows
            (Some [File "index.json" (Some scenario_A);
                   File "notes.txt" (Some scenario_A);
                   Dir "sub"
                     [File "A.JSON"
                        (Some (JDict [("Parameters",
                                       JList [JInt 3; JDict [("Name", JInt 5)]])]))]]))))
    by (vm_compute; auto).
  split; [ exact Hin | ].
  destruct (proj1 (only_json_files_but_index_are_scanned Windows _) _ _ Hin)
    as (file & data & _ & _ & Hname & Hpath & _ & _ & Hdata).
  exists file, data. split; [ exact Hname | ]. split; [ exact Hpath | exact Hdata ].
Defined.

(** C5: what a call of [visit] adds is a function of the node, the trail
    and the path alone, whatever [results] holds already: an object adds
    its own match, then what its items add in the order the parser stored
    them; a list adds what its elements add in index order; and a run adds,
    file after file in the order of the enumeration, what each file adds
    from an empty trail.  The run itself starts from an empty [results] and
    reads nothing but the host and the directory. *)
Theorem scan_output_is_determined :
  (forall node trail path results,
     visit node trail path results = results ++ emitted node trail path)
  /\ (forall node_dict trail path,
        emitted (JDict node_dict) trail path
        = report node_dict trail path []
          ++ flat_map (fun kv => emitted (snd kv) (trail ++ [fst kv]) path) node_dict)
  /\ (forall node_list trail path,
        emitted (JList node_list) trail path
        = concat (imap (fun idx item =>
                          emitted item (trail ++ [str_int (Z.of_nat idx)]) path)
                    node_list))
  /\ (forall host entries results,
        scan host (Some entries) results
        = results ++ flat_map (scan_file host []) (rglob host BASE_DIR entries))
  /\ (forall host base_dir,
        main host base_dir
        = (scan host base_dir [], report_lines (scan host base_dir []))).
Proof.
  split; [ intros; apply visit_app | ].
  split; [ intros; apply emitted_dict | ].
  split; [ intros; apply emitted_list | ].
  split; [ intros; apply fold_scan_file | reflexivity ].
Qed.

(** * Termination *)





(** * Trails as list objects *)

(** C7: a call of [visit] on a trail object leaves every list object that
    existed as it was, the trail it was given among them, and adds to
    [results] what the scan over plain values adds.  The trail of every
    call made below is an object that did not exist before, no two calls
    share one, and when the call returns each still holds the trail of its
    node: the parent's items and one more segment, as [trails] lists them.
    [trail + [segment]] itself writes to a new object only. *)
Theorem visit_never_writes_a_trail
    (node : json) (trail : nat) (items : Trail) (path : string) (st : Heap.state) :
  Heap.lists st !! trail = Some items ->
  (forall ref held,
     Heap.lists st !! ref = Some held ->
     Heap.lists (Heap.visit node trail path st) !! ref = Some held)
  /\ Heap.results (Heap.visit node trail path st) = visit node items path (Heap.results st)
  /\ (exists refs,
        Heap.entered (Heap.visit node trail path st) = Heap.entered st ++ trail :: refs
        /\ NoDup refs
        /\ Forall (fun ref => Heap.lists st !! ref = None) refs
        /\ Forall2 (fun ref held =>
                      Heap.lists (Heap.visit node trail path st) !! ref = Some held)
             (trail :: refs) (trails node items))
  /\ (forall segment,
        Heap.lists st !! fst (Heap.plus trail segment (Heap.lists st)) = None
        /\ snd (Heap.plus trail segment (Heap.lists st))
             !! fst (Heap.plus trail segment (Heap.lists st))
           = Some (items ++ [segment])
        /\ snd (Heap.plus trail segment (Heap.lists st)) !! trail = Some items)
  /\ (forall node_dict,
        trails (JDict node_dict) items
        = items :: flat_map (fun kv => trails (snd kv) (items ++ [fst kv])) node_dict)
  /\ (forall node_list,
        trails (JList node_list) items
        = items :: concat (imap (fun idx item =>
                                   trails item (items ++ [str_int (Z.of_nat idx)]))
                             node_list)).
Proof.
  intros Hget.
  destruct (heap_visit_spec node trail items path st Hget)
    as (Hsub & Hres & refs & Hent & Hnd & Hnone & Hall).
  split; [ | split; [ | split; [ | split; [ | split ] ] ] ].
  - intros ref held Hheld. exact (lookup_weaken _ _ _ _ Hheld Hsub).
  - now rewrite Hres, visit_app.
  - exists refs. tauto.
  - intros segment.
    destruct (plus_spec trail items segment _ Hget) as (Hfresh & Hnew & Hkept).
    split; [ exact Hfresh | ]. split; [ exact Hnew | ].
    exact (lookup_weaken _ _ _ _ Hget Hkept).
  - intros node_dict. apply trails_dict.
  - intros node_list. apply trails_list.
Qed.

Lemma trail_object_kept_across_siblings :
  Heap.lists (Heap.State {[ 0%nat := ["Columns"] ]} [] []) !! 0%nat = Some ["Columns"]
  /\ Heap.lists
       (Heap.visit (JList [JDict [("Name", JStr "id")]; JDict [("Name", JStr "at")]])
          0 "debug/.xtraq/a.json" (Heap.State {[ 0%nat := ["Columns"] ]} [] []))
       !! 0%nat = Some ["Columns"]
  /\ Heap.results
       (Heap.visit (JList [JDict [("Name", JStr "id")]; JDict [("Name", JStr "at")]])
          0 "debug/.xtraq/a.json" (Heap.State {[ 0%nat := ["Columns"] ]} [] []))
     = [("debug/.xtraq/a.json", "Columns/0/id"); ("debug/.xtraq/a.json", "Columns/1/at")].
Proof.
  assert (Hget : Heap.lists (Heap.State {[ 0%nat := ["Columns"] ]} [] []) !! 0%nat
                 = Some ["Columns"]) by reflexivity.
  destruct (visit_never_writes_a_trail
              (JList [JDict [("Name", JStr "id")]; JDict [("Name", JStr "at")]])
              0 ["Columns"] "debug/.xtraq/a.json" _ Hget) as (Hkept & Hres & _).
  split; [ exact Hget | ]. split; [ exact (Hkept _ _ Hget) | exact Hres ].
Defined.

(** * More on the scanner *)

Lemma subnodes_dict (node_dict : list (string * json)) (trail : Trail) :
  subnodes (JDict node_dict) trail
  = (trail, JDict node_dict)
    :: flat_map (fun kv => subnodes (snd kv) (trail ++ [fst kv])) node_dict.
Proof.
  simpl. rewrite (for_items_app _ (fun key value => subnodes value (trail ++ [key]))).
  - reflexivity.
  - apply Forall_forall. intros kv _ xs. reflexivity.
Qed.

Lemma subnodes_list (node_list : list json) (trail : Trail) :
  subnodes (JList node_list) trail
  = (trail, JList node_list)
    :: concat (imap (fun idx item => subnodes item (trail ++ [str_int (Z.of_nat idx)]))
                 node_list).
Proof.
  simpl.
  rewrite (for_enumerate_app _
             (fun idx item => subnodes item (trail ++ [str_int (Z.of_nat idx)]))).
  - reflexivity.
  - apply Forall_forall. intros item _ idx xs. reflexivity.
Qed.

Lemma flat_map_fusion {A B C : Type} (f : B -> list C) (g : A -> list B)
    (a : A -> list C) (xs : list A) :
  Forall (fun x => a x = flat_map f (g x)) xs ->
  flat_map a xs = flat_map f (flat_map g xs).
Proof.
  induction 1 as [ | x xs Hx _ IH ]; simpl; [ reflexivity | ].
  now rewrite flat_map_app, Hx, IH.
Qed.

Lemma concat_imap_fusion {A B C : Type} (f : B -> list C) (xs : list A) :
  forall (g : nat -> A -> list C) (h : nat -> A -> list B),
    Forall (fun x => forall i, g i x = flat_map f (h i x)) xs ->
    concat (imap g xs) = flat_map f (concat (imap h xs)).
Proof.
  induction xs as [ | x xs IH ]; intros g h Hall; simpl; [ reflexivity | ].
  apply Forall_cons in Hall. destruct Hall as [Hx Hxs].
  rewrite flat_map_app, Hx. f_equal. apply IH.
  eapply Forall_impl; [ exact Hxs | ]. intros y Hy i. apply Hy.
Qed.

Lemma in_concat_imap {A B : Type} (xs : list A) :
  forall (g : nat -> A -> list B) (b : B),
    In b (concat (imap g xs)) -> exists i x, In x xs /\ In b (g i x).
Proof.
  induction xs as [ | x xs IH ]; intros g b Hin; simpl in Hin; [ contradiction | ].
  apply in_app_or in Hin. destruct Hin as [ Hin | Hin ].
  - exists 0%nat, x. split; [ now left | exact Hin ].
  - destruct (IH _ _ Hin) as (i & y & Hy & Hb).
    exists (S i), y. split; [ now right | exact Hb ].
Qed.

Lemma concat_imap_nil {A B : Type} (xs : list A) :
  forall (g : nat -> A -> list B),
    Forall (fun x => forall i, g i x = []) xs -> concat (imap g xs) = [].
Proof.
  induction xs as [ | x xs IH ]; intros g Hall; simpl; [ reflexivity | ].
  apply Forall_cons in Hall. destruct Hall as [Hx Hxs].
  rewrite Hx. simpl. apply IH.
  eapply Forall_impl; [ exact Hxs | ]. intros y Hy i. apply Hy.
Qed.

Lemma flat_map_nil {A B : Type} (f : A -> list B) (xs : list A) :
  Forall (fun x => f x = []) xs -> flat_map f xs = [].
Proof.
  induction 1 as [ | x xs Hx _ IH ]; simpl; [ reflexivity | ].
  now rewrite Hx, IH.
Qed.

Lemma emitted_subnodes (node : json) :
  forall (trail : Trail) (path : string),
    emitted node trail path
    = flat_map (fun tn => own_match (snd tn) (fst tn) path) (subnodes node trail).
Proof.
  induction node as [ | b | n | t | s | l IH | d IH ] using json_tree_ind;
    intros trail path; try reflexivity.
  - rewrite emitted_list, subnodes_list. simpl.
    apply concat_imap_fusion.
    eapply Forall_impl; [ exact IH | ]. intros item Hitem i. apply Hitem.
  - rewrite emitted_dict, subnodes_dict. simpl. f_equal.
    apply flat_map_fusion.
    eapply Forall_impl; [ exact IH | ]. intros kv Hkv. apply Hkv.
Qed.

(** X1: what a scan adds is what each node of the tree adds for itself,
    tested against its own trail, node after node in the order of the
    calls: the parent, then its children in turn, each with all that is
    below it.  The trail of a node is that of the tree followed by the keys
    and indices that lead to the node. *)
Theorem scan_is_node_tests_in_call_order (node : json) (trail : Trail) (path : string) :
  emitted node trail path
  = flat_map (fun tn => own_match (snd tn) (fst tn) path) (subnodes node trail)
  /\ (forall node_dict,
        subnodes (JDict node_dict) trail
        = (trail, JDict node_dict)
          :: flat_map (fun kv => subnodes (snd kv) (trail ++ [fst kv])) node_dict)
  /\ (forall node_list,
        subnodes (JList node_list) trail
        = (trail, JList node_list)
          :: concat (imap (fun idx item =>
                             subnodes item (trail ++ [str_int (Z.of_nat idx)]))
                       node_list)).
Proof.
  split; [ apply emitted_subnodes | ].
  split; [ intros node_dict; apply subnodes_dict
         | intros node_list; apply subnodes_list ].
Qed.

(** The trail of every node of a tree starts with the trail of the tree. *)
Lemma subnodes_prefix (node : json) :
  forall (trail : Trail) tn,
    In tn (subnodes node trail) -> exists rest, fst tn = trail ++ rest.
Proof.
  induction node as [ | b | n | t | s | l IH | d IH ] using json_tree_ind;
    intros trail tn Hin.
  1-5: (destruct Hin as [ <- | [] ]; exists []; simpl; now rewrite app_nil_r).
  - rewrite subnodes_list in Hin. destruct Hin as [ <- | Hin ].
    + exists []. simpl. now rewrite app_nil_r.
    + apply in_concat_imap in Hin. destruct Hin as (i & item & Hitem & Hin).
      rewrite Forall_forall in IH.
      destruct (IH item (proj2 (list_elem_of_In _ _) Hitem) _ _ Hin) as (rest & ->).
      eexists. now rewrite <- app_assoc.
  - rewrite subnodes_dict in Hin. destruct Hin as [ <- | Hin ].
    + exists []. simpl. now rewrite app_nil_r.
    + apply in_flat_map in Hin. destruct Hin as (kv & Hkv & Hin).
      rewrite Forall_forall in IH.
      destruct (IH kv (proj2 (list_elem_of_In _ _) Hkv) _ _ Hin) as (rest & ->).
      eexists. now rewrite <- app_assoc.
Qed.

Lemma own_match_cases (node : json) (trail : Trail) (path : string) :
  (is_bare_Name node = true
   /\ under_Columns_or_Parameters trail
   /\ own_match node trail path = [(path, join (trail ++ [str (Name_of node)]))])
  \/ ((is_bare_Name node = false \/ ~ under_Columns_or_Parameters trail)
      /\ own_match node trail path = []).
Proof.
  destruct node as [ | b | n | t | s | l | d ];
    try (right; split; [ left; reflexivity | reflexivity ]).
  simpl. unfold report.
  destruct (is_not_None _ && _).
  - destruct (any_segment _ _ || _) eqn:Hanc.
    + left. split; [ reflexivity | ]. split; [ now apply ancestry_test | reflexivity ].
    + right. split; [ | reflexivity ]. right. intros Hu%ancestry_test. congruence.
  - right. split; [ left; reflexivity | reflexivity ].
Qed.

Lemma in_concat_imap_nth {A B : Type} (xs : list A) :
  forall (g : nat -> A -> list B) (b : B),
    In b (concat (imap g xs))
    <-> exists i x, nth_error xs i = Some x /\ In b (g i x).
Proof.
  induction xs as [ | x xs IH ]; intros g b; simpl.
  - split; [ contradiction | ]. intros ([ | i ] & y & Hy & _); discriminate.
  - rewrite in_app_iff, IH. split.
    + intros [ Hin | (i & y & Hy & Hb) ].
      * exists 0%nat, x. split; [ reflexivity | exact Hin ].
      * exists (S i), y. split; [ exact Hy | exact Hb ].
    + intros ([ | i ] & y & Hy & Hb).
      * left. simpl in Hy. now injection Hy as ->.
      * right. exists i, y. split; [ exact Hy | exact Hb ].
Qed.

(** The nodes a scan reaches are those the keys and indices lead to, and
    the trail of each is the trail of the tree followed by them. *)
Lemma subnodes_leads (node : json) :
  forall (trail : Trail) (t : list string) (sub : json),
    In (t, sub) (subnodes node trail)
    <-> exists rest, t = trail ++ rest /\ leads_to node rest sub.
Proof.
  induction node as [ | b | n | tx | s | l IH | d IH ] using json_tree_ind;
    intros trail t sub.
  1-5: (split;
        [ intros [ Heq | [] ]; injection Heq as <- <-; exists [];
          split; [ now rewrite app_nil_r | constructor ]
        | intros (rest & -> & Hleads); inversion Hleads; subst;
          left; now rewrite app_nil_r ]).
  - rewrite subnodes_list. simpl. rewrite in_concat_imap_nth. split.
    + intros [ Heq | (i & item & Hitem & Hin) ].
      * injection Heq as <- <-. exists []. split; [ now rewrite app_nil_r | constructor ].
      * rewrite Forall_forall in IH.
        assert (Hmem : item ∈ l)
          by (apply list_elem_of_In; eapply nth_error_In; exact Hitem).
        apply (IH item Hmem) in Hin. destruct Hin as (rest & -> & Hleads).
        exists (str_int (Z.of_nat i) :: rest). split; [ now rewrite <- app_assoc | ].
        econstructor; eassumption.
    + intros (rest & -> & Hleads). inversion Hleads; subst.
      * left. now rewrite app_nil_r.
      * right. exists idx, item. split; [ assumption | ].
        rewrite Forall_forall in IH.
        assert (Hmem : item ∈ l)
          by (apply list_elem_of_In; eapply nth_error_In; eassumption).
        apply (IH item Hmem). exists rest0. split; [ now rewrite <- app_assoc | assumption ].
  - rewrite subnodes_dict. simpl. rewrite in_flat_map. split.
    + intros [ Heq | ([key value] & Hkv & Hin) ].
      * injection Heq as <- <-. exists []. split; [ now rewrite app_nil_r | constructor ].
      * rewrite Forall_forall in IH.
        apply (IH (key, value) (proj2 (list_elem_of_In _ _) Hkv)) in Hin.
        destruct Hin as (rest & -> & Hleads). simpl.
        exists (key :: rest). split; [ now rewrite <- app_assoc | ].
        apply (leads_key d key value); assumption.
    + intros (rest & -> & Hleads). inversion Hleads; subst.
      * left. now rewrite app_nil_r.
      * right. exists (key, value). split; [ assumption | ].
        rewrite Forall_forall in IH.
        apply (IH (key, value) (proj2 (list_elem_of_In _ _) ltac:(eassumption))).
        simpl. exists rest0. split; [ now rewrite <- app_assoc | assumption ].
Qed.

Lemma bare_Name_shape (node : json) :
  is_bare_Name node = true
  <-> exists value, node = JDict [("Name", value)] /\ value <> JNone.
Proof.
  destruct node as [ | b | n | t | s | l | d ];
    try (split; [ discriminate | intros (value & Heq & _); discriminate ]).
  simpl. rewrite shape_test. unfold sole_Name. split.
  - intros (value & -> & Hvalue). now exists value.
  - intros (value & Heq & Hvalue). injection Heq as ->. now exists value.
Qed.

(** X2: a pair is among the matches a scan adds exactly when it is the
    path the scan was given with this location: the scan's trail, then the
    keys and indices that lead from the scanned node down to an object
    whose only key is [Name] with a value that is not null, then the text
    of that value, [Columns] or [Parameters] being among the segments
    before that text. *)
Theorem matches_are_the_reached_bare_Names
    (node : json) (trail : Trail) (path : string) (found : string * string) :
  In found (emitted node trail path)
  <-> exists rest value,
        leads_to node rest (JDict [("Name", value)])
        /\ value <> JNone
        /\ under_Columns_or_Parameters (trail ++ rest)
        /\ found = (path, join ((trail ++ rest) ++ [str value])).
Proof.
  rewrite emitted_subnodes, in_flat_map. split.
  - intros ([t n] & Hsub & Hin). simpl in Hin.
    apply subnodes_leads in Hsub. destruct Hsub as (rest & -> & Hleads).
    destruct (own_match_cases n (trail ++ rest) path)
      as [ (Hbare & Hu & Heq) | (_ & Heq) ];
      rewrite Heq in Hin; [ | contradiction ].
    destruct Hin as [ <- | [] ].
    apply bare_Name_shape in Hbare. destruct Hbare as (value & -> & Hvalue).
    exists rest, value. repeat split; assumption.
  - intros (rest & value & Hleads & Hvalue & Hu & ->).
    exists (trail ++ rest, JDict [("Name", value)]). split.
    + apply subnodes_leads. now exists rest.
    + destruct (own_match_cases (JDict [("Name", value)]) (trail ++ rest) path)
        as [ (_ & _ & Heq) | ([ Hbare | Hnot ] & _) ].
      * simpl fst. simpl snd. rewrite Heq. now left.
      * assert (is_bare_Name (JDict [("Name", value)]) = true)
          by (apply bare_Name_shape; now exists value).
        congruence.
      * contradiction.
Qed.

Lemma matches_are_the_reached_bare_Names_example :
  In ("debug/.xtraq/a.json", "Tables/Columns/0/id")
    (emitted (JDict [("Columns", JList [JDict [("Name", JStr "id")]])])
       ["Tables"] "debug/.xtraq/a.json")
  /\ exists rest value,
       leads_to (JDict [("Columns", JList [JDict [("Name", JStr "id")]])]) rest
         (JDict [("Name", value)])
       /\ value <> JNone
       /\ under_Columns_or_Parameters (["Tables"] ++ rest)
       /\ ("debug/.xtraq/a.json", "Tables/Columns/0/id")
          = ("debug/.xtraq/a.json", join ((["Tables"] ++ rest) ++ [str value])).
Proof.
  assert (Hin : In ("debug/.xtraq/a.json", "Tables/Columns/0/id")
                  (emitted (JDict [("Columns", JList [JDict [("Name", JStr "id")]])])
                     ["Tables"] "debug/.xtraq/a.json")) by (left; reflexivity).
  split; [ exact Hin | ].
  exact (proj1 (matches_are_the_reached_bare_Names _ _ _ _) Hin).
Defined.

Lemma str_int_nat_is_no_key (idx : nat) :
  str_int (Z.of_nat idx) <> "Columns" /\ str_int (Z.of_nat idx) <> "Parameters".
Proof.
  unfold str_int. destruct (Z.of_nat idx) as [ | p | p ]; simpl.
  - split; discriminate.
  - destruct (Pos.to_uint p); split; discriminate.
  - split; discriminate.
Qed.

Lemma existsb_false_In {A : Type} (f : A -> bool) (xs : list A) :
  existsb f xs = false -> forall x, In x xs -> f x = false.
Proof.
  intros Hnone x Hin. destruct (f x) eqn:Hfx; [ | reflexivity ].
  assert (existsb f xs = true) by (apply existsb_exists; eauto).
  congruence.
Qed.

Lemma not_under_snoc (trail : Trail) (segment : string) :
  ~ under_Columns_or_Parameters trail ->
  segment <> "Columns" -> segment <> "Parameters" ->
  ~ under_Columns_or_Parameters (trail ++ [segment]).
Proof.
  unfold under_Columns_or_Parameters. intros Hnot Hc Hp [ Hin | Hin ];
    apply in_app_or in Hin; destruct Hin as [ Hin | [ Heq | [] ] ];
    try congruence; tauto.
Qed.

(** X3: when neither the trail nor any object of the tree has [Columns] or
    [Parameters] as a key, a scan adds nothing, whatever [Name] objects the
    tree holds; list indices never count as such a key. *)
Theorem no_ancestor_key_no_match (node : json) :
  forall (trail : Trail) (path : string),
    ~ under_Columns_or_Parameters trail ->
    has_ancestor_key node = false ->
    emitted node trail path = [].
Proof.
  induction node as [ | b | n | t | s | l IH | d IH ] using json_tree_ind;
    intros trail path Hnot Hkeys; try reflexivity.
  - rewrite emitted_list. apply concat_imap_nil.
    simpl in Hkeys. pose proof (existsb_false_In _ _ Hkeys) as Hnone.
    rewrite Forall_forall in IH. apply Forall_forall.
    intros item Hitem i.
    destruct (str_int_nat_is_no_key i) as [Hc Hp].
    apply (IH item Hitem); [ now apply not_under_snoc | ].
    apply Hnone. now apply list_elem_of_In.
  - rewrite emitted_dict.
    destruct (report_cases d trail path []) as [ (_ & Hu & _) | (_ & ->) ];
      [ contradiction | ].
    simpl. apply flat_map_nil.
    simpl in Hkeys. pose proof (existsb_false_In _ _ Hkeys) as Hnone.
    rewrite Forall_forall in IH. apply Forall_forall.
    intros kv Hkv.
    specialize (Hnone kv (proj1 (list_elem_of_In _ _) Hkv)). simpl in Hnone.
    rewrite !orb_false_iff in Hnone.
    destruct Hnone as [[Hc Hp] Hsub].
    apply String.eqb_neq in Hc, Hp.
    apply (IH kv Hkv); [ now apply not_under_snoc | exact Hsub ].
Qed.

Lemma no_ancestor_key_no_match_example :
  ~ under_Columns_or_Parameters ["Tables"; "0"]
  /\ has_ancestor_key
       (JDict [("Fields", JList [JDict [("Name", JStr "id")]; JDict [("Name", JInt 7)]])])
     = false
  /\ emitted
       (JDict [("Fields", JList [JDict [("Name", JStr "id")]; JDict [("Name", JInt 7)]])])
       ["Tables"; "0"] "debug/.xtraq/a.json" = [].
Proof.
  assert (Hnot : ~ under_Columns_or_Parameters ["Tables"; "0"]).
  { intros [ Hin | Hin ]; simpl in Hin;
      destruct Hin as [ Heq | [ Heq | [] ] ]; discriminate. }
  assert (Hkeys : has_ancestor_key
            (JDict [("Fields", JList [JDict [("Name", JStr "id")]; JDict [("Name", JInt 7)]])])
          = false) by reflexivity.
  split; [ exact Hnot | ]. split; [ exact Hkeys | ].
  exact (no_ancestor_key_no_match _ _ "debug/.xtraq/a.json" Hnot Hkeys).
Defined.

Lemma flat_map_filter_map {A B : Type} (f : A -> list B) (p : A -> bool) (g : A -> B)
    (xs : list A) :
  (forall x, In x xs -> f x = if p x then [g x] else []) ->
  flat_map f xs = map g (List.filter p xs).
Proof.
  induction xs as [ | x xs IH ]; intros Hall; simpl; [ reflexivity | ].
  rewrite (Hall x (or_introl eq_refl)), IH by (intros y Hy; apply Hall; now right).
  now destruct (p x).
Qed.

Lemma under_app (trail rest : Trail) :
  under_Columns_or_Parameters trail -> under_Columns_or_Parameters (trail ++ rest).
Proof.
  unfold under_Columns_or_Parameters. intros [ Hin | Hin ];
    [ left | right ]; apply in_or_app; now left.
Qed.

(** X4: once [Columns] or [Parameters] is in the trail, a scan reports
    every object of the tree that holds only a non-null [Name], at any
    depth, in the order of the calls, each with its own trail followed by
    the text of its value. *)
Theorem below_ancestor_every_bare_Name_is_reported
    (node : json) (trail : Trail) (path : string) :
  under_Columns_or_Parameters trail ->
  emitted node trail path
  = map (fun tn => (path, join (fst tn ++ [str (Name_of (snd tn))])))
      (List.filter (fun tn => is_bare_Name (snd tn)) (subnodes node trail)).
Proof.
  intros Hu. rewrite emitted_subnodes.
  apply flat_map_filter_map. intros [t n] Hin. simpl.
  destruct (subnodes_prefix _ _ _ Hin) as (rest & Hrest). simpl in Hrest. subst t.
  destruct (own_match_cases n (trail ++ rest) path)
    as [ (-> & _ & ->) | ([ -> | Hnot ] & ->) ]; try reflexivity.
  contradict Hnot. now apply under_app.
Qed.

Lemma below_ancestor_example :
  under_Columns_or_Parameters ["Parameters"]
  /\ emitted
       (JDict [("p1", JDict [("Type", JDict [("Name", JStr "int")]);
                             ("Name", JStr "x")]);
               ("p2", JList [JDict [("Name", JNone)]; JDict [("Name", JBool true)]])])
       ["Parameters"] "debug/.xtraq/p.json"
     = [("debug/.xtraq/p.json", "Parameters/p1/Type/int");
        ("debug/.xtraq/p.json", "Parameters/p2/1/True")].
Proof.
  assert (Hu : under_Columns_or_Parameters ["Parameters"]) by (right; simpl; auto).
  split; [ exact Hu | ].
  exact (below_ancestor_every_bare_Name_is_reported _ _ "debug/.xtraq/p.json" Hu).
Defined.

(** ** One call per node *)

Lemma length_concat_imap {A B : Type} (h : A -> nat) (xs : list A) :
  forall (g : nat -> A -> list B),
    Forall (fun x => forall i, length (g i x) = h x) xs ->
    length (concat (imap g xs)) = list_sum (map h xs).
Proof.
  induction xs as [ | x xs IH ]; intros g Hall; simpl; [ reflexivity | ].
  apply Forall_cons in Hall. destruct Hall as [Hx Hxs].
  rewrite length_app, Hx. f_equal. apply IH.
  eapply Forall_impl; [ exact Hxs | ]. intros y Hy i. apply Hy.
Qed.

Lemma length_flat_map_sum {A B : Type} (h : A -> nat) (g : A -> list B) (xs : list A) :
  Forall (fun x => length (g x) = h x) xs ->
  length (flat_map g xs) = list_sum (map h xs).
Proof.
  induction 1 as [ | x xs Hx _ IH ]; simpl; [ reflexivity | ].
  now rewrite length_app, Hx, IH.
Qed.

Lemma length_trails (node : json) :
  forall trail : Trail, length (trails node trail) = size node.
Proof.
  induction node as [ | b | n | t | s | l IH | d IH ] using json_tree_ind;
    intros trail; try reflexivity.
  - rewrite trails_list. simpl. f_equal. apply length_concat_imap.
    eapply Forall_impl; [ exact IH | ]. intros item Hitem i. apply Hitem.
  - rewrite trails_dict. simpl. f_equal.
    apply (length_flat_map_sum (fun kv => size (snd kv))).
    eapply Forall_impl; [ exact IH | ]. intros kv Hkv. apply Hkv.
Qed.

(** X5: a scan calls [visit] once for every node of the tree, no more and
    no less: on the store of list objects, the calls entered grow by the
    number of nodes. *)
Theorem visit_is_called_once_per_node
    (node : json) (trail : nat) (items : Trail) (path : string) (st : Heap.state) :
  Heap.lists st !! trail = Some items ->
  length (Heap.entered (Heap.visit node trail path st))
  = (length (Heap.entered st) + size node)%nat.
Proof.
  intros Hget.
  destruct (heap_visit_spec node trail items path st Hget)
    as (_ & _ & refs & Hent & _ & _ & Hall).
  apply Forall2_length in Hall. rewrite length_trails in Hall.
  rewrite Hent, length_app. now rewrite Hall.
Qed.

Lemma visit_is_called_once_per_node_example :
  Heap.lists (Heap.State {[ 5%nat := ["Columns"] ]} [] [5%nat]) !! 5%nat = Some ["Columns"]
  /\ length (Heap.entered
               (Heap.visit (JList [JDict [("Name", JStr "id")]; JNone]) 5
                  "debug/.xtraq/a.json"
                  (Heap.State {[ 5%nat := ["Columns"] ]} [] [5%nat])))
     = 5%nat.
Proof.
  assert (Hget : Heap.lists (Heap.State {[ 5%nat := ["Columns"] ]} [] [5%nat]) !! 5%nat
                 = Some ["Columns"]) by reflexivity.
  split; [ exact Hget | ].
  exact (visit_is_called_once_per_node
           (JList [JDict [("Name", JStr "id")]; JNone]) 5 ["Columns"]
           "debug/.xtraq/a.json" _ Hget).
Defined.

(** * More on the driver loop *)

Lemma replace_append (old new : ascii) (s1 s2 : string) :
  replace old new (s1 +:+ s2) = replace old new s1 +:+ replace old new s2.
Proof.
  unfold replace. induction s1 as [ | c s1 IH ]; [ reflexivity | ].
  change (String c s1 +:+ s2) with (String c (s1 +:+ s2)).
  cbn [map_chars]. rewrite IH. reflexivity.
Qed.

(** X6: the path written into a match does not depend on the host: it is
    the parts of the file's path, each with its backslashes turned into
    slashes, joined by slashes. *)
Theorem reported_path_is_host_independent (host : flavour) (file : Path) :
  replace "\" "/" (str_path host file)
  = String.concat "/" (map (replace "\" "/") file).
Proof.
  unfold str_path. induction file as [ | part file IH ]; [ reflexivity | ].
  destruct file as [ | next file ]; [ reflexivity | ].
  change (String.concat (sep host) (part :: next :: file))
    with (part +:+ sep host +:+ String.concat (sep host) (next :: file)).
  change (String.concat "/" (map (replace "\" "/") (part :: next :: file)))
    with (replace "\" "/" part +:+ "/"
          +:+ String.concat "/" (map (replace "\" "/") (next :: file))).
  rewrite !replace_append, IH. now destruct host.
Qed.

Lemma in_selected_intro host dir entries e :
  In e entries -> glob_json host (entry_name e) = true ->
  In (dir ++ [entry_name e], entry_load e) (selected host dir entries).
Proof.
  intros Hin Hglob. unfold selected. apply in_flat_map.
  exists e. split; [ exact Hin | ]. rewrite Hglob. now left.
Qed.

(** The pattern reaches every matching entry, at any depth. *)
Lemma lies_at_rglob host entries parents e :
  lies_at entries parents e ->
  glob_json host (entry_name e) = true ->
  forall dir, In ((dir ++ parents) ++ [entry_name e], entry_load e)
                (rglob host dir entries).
Proof.
  intros Hlies Hglob.
  induction Hlies as [ entries e Hin | entries n sub parents e Hdir _ IH ]; intros dir.
  - rewrite app_nil_r. unfold rglob. apply in_or_app. left.
    now apply in_selected_intro.
  - unfold rglob. apply in_or_app. right. apply in_flat_map.
    exists (Dir n sub). split; [ exact Hdir | ].
    specialize (IH Hglob (dir ++ [n])).
    replace (dir ++ n :: parents) with ((dir ++ [n]) ++ parents)
      by (now rewrite <- app_assoc).
    exact IH.
Qed.

Lemma in_fold_scan_file host files file data found results :
  In (file, Some data) files ->
  name file <> "index.json" ->
  In found (emitted data [] (replace "\" "/" (str_path host file))) ->
  In found (fold_left (scan_file host) files results).
Proof.
  intros Hfile Hname Hfound. rewrite fold_scan_file.
  apply in_or_app. right. apply in_flat_map.
  exists (file, Some data). split; [ exact Hfile | ].
  unfold scan_file. simpl.
  apply String.eqb_neq in Hname. now rewrite Hname.
Qed.

(** X7: every file under [BASE_DIR], at any depth, whose name the pattern
    matches and is not [index.json], and that loads, is scanned: each match
    of its document, scanned from an empty trail under the file's path
    with slashes, is among the results of the run. *)
Theorem every_loadable_json_file_is_scanned
    (host : flavour) (entries : list entry) (parents : list string) (n : string)
    (data : json) (found : string * string) :
  lies_at entries parents (File n (Some data)) ->
  glob_json host n = true ->
  n <> "index.json" ->
  In found (emitted data []
              (replace "\" "/" (str_path host ((BASE_DIR ++ parents) ++ [n])))) ->
  In found (fst (main host (Some entries))).
Proof.
  intros Hlies Hglob Hname Hfound. unfold main, scan. simpl fst.
  eapply in_fold_scan_file; [ | | exact Hfound ].
  - exact (lies_at_rglob host entries parents _ Hlies Hglob BASE_DIR).
  - now rewrite name_snoc.
Qed.

Lemma nested_file_is_scanned :
  lies_at [File "index.json" None;
           Dir "procs" [Dir "dbo" [File "GetUser.json" (Some scenario_A)]]]
    ["procs"; "dbo"] (File "GetUser.json" (Some scenario_A))
  /\ In ("debug/.xtraq/procs/dbo/GetUser.json", "Columns/0/id")
       (fst (main Windows
               (Some [File "index.json" None;
                      Dir "procs" [Dir "dbo" [File "GetUser.json" (Some scenario_A)]]]))).
Proof.
  assert (Hlies : lies_at [File "index.json" None;
                           Dir "procs" [Dir "dbo" [File "GetUser.json" (Some scenario_A)]]]
                    ["procs"; "dbo"] (File "GetUser.json" (Some scenario_A))).
  { eapply lies_below; [ right; left; reflexivity | ].
    eapply lies_below; [ left; reflexivity | ].
    apply lies_here. left. reflexivity. }
  split; [ exact Hlies | ].
  refine (every_loadable_json_file_is_scanned Windows _ _ "GetUser.json" scenario_A
            ("debug/.xtraq/procs/dbo/GetUser.json", "Columns/0/id") Hlies _ _ _).
  - reflexivity.
  - discriminate.
  - left. reflexivity.
Defined.

Lemma selected_cons host dir (e : entry) (entries : list entry) :
  selected host dir (e :: entries)
  = selected host dir [e] ++ selected host dir entries.
Proof. exact (selected_app host dir [e] entries). Qed.

Lemma prune_all_keeps_enumeration host (entries : list entry) :
  Forall (fun e => forall dir,
            selected host dir (prune host e) = selected host dir [e]
            /\ flat_map (below host dir) (prune host e) = below host dir e) entries ->
  forall dir,
    selected host dir (prune_all host entries) = selected host dir entries
    /\ flat_map (below host dir) (prune_all host entries)
       = flat_map (below host dir) entries.
Proof.
  unfold prune_all.
  induction 1 as [ | e entries He _ IH ]; intros dir; [ split; reflexivity | ].
  destruct (He dir) as [Hsel Hbelow]. destruct (IH dir) as [IHsel IHbelow].
  simpl. rewrite selected_app, flat_map_app, Hsel, Hbelow, IHsel, IHbelow.
  split; [ symmetry; apply selected_cons | reflexivity ].
Qed.

Lemma prune_keeps_enumeration host (e : entry) :
  forall dir,
    selected host dir (prune host e) = selected host dir [e]
    /\ flat_map (below host dir) (prune host e) = below host dir e.
Proof.
  induction e as [ n load | n entries IH ] using entry_tree_ind; intros dir.
  - unfold selected. simpl. destruct (glob_json host n) eqn:Hglob; simpl.
    + rewrite Hglob. split; reflexivity.
    + split; reflexivity.
  - split; [ reflexivity | ].
    cbn [prune flat_map below]. rewrite app_nil_r.
    destruct (prune_all_keeps_enumeration host entries IH (dir ++ [n])) as [Hsel Hbelow].
    unfold prune_all in Hsel, Hbelow. now rewrite Hsel, Hbelow.
Qed.

Lemma rglob_prune_all host dir (entries : list entry) :
  rglob host dir (prune_all host entries) = rglob host dir entries.
Proof.
  unfold rglob.
  destruct (prune_all_keeps_enumeration host entries
              (proj2 (Forall_forall _ _) (fun e _ => prune_keeps_enumeration host e)) dir)
    as [Hsel Hbelow].
  now rewrite Hsel, Hbelow.
Qed.

Lemma in_prune_all host (entries : list entry) (e : entry) :
  In e (prune_all host entries)
  <-> match e with
      | File n load => In (File n load) entries /\ glob_json host n = true
      | Dir n pruned =>
          exists sub, In (Dir n sub) entries /\ pruned = prune_all host sub
      end.
Proof.
  unfold prune_all. rewrite in_flat_map. split.
  - intros ([ n' load' | n' sub ] & Hin & He); simpl in He.
    + destruct (glob_json host n') eqn:Hglob; [ | contradiction ].
      destruct He as [ <- | [] ]. split; assumption.
    + destruct He as [ <- | [] ]. exists sub. split; [ assumption | reflexivity ].
  - destruct e as [ n load | n pruned ].
    + intros [Hin Hglob]. exists (File n load). split; [ exact Hin | ].
      simpl. rewrite Hglob. now left.
    + intros (sub & Hin & ->). exists (Dir n sub). split; [ exact Hin | now left ].
Qed.

(** The files of the pruned directory are the files of the directory that
    the pattern matches, each where it was. *)
Lemma lies_at_prune_all host (parents : list string) :
  forall (entries : list entry) (n : string) (load : option json),
    lies_at (prune_all host entries) parents (File n load)
    <-> lies_at entries parents (File n load) /\ glob_json host n = true.
Proof.
  induction parents as [ | p parents IH ]; intros entries n load; split.
  - intros Hlies. inversion Hlies; subst.
    match goal with H : In _ (prune_all _ _) |- _ =>
      apply (in_prune_all host entries (File n load)) in H; destruct H as [Hin Hglob] end.
    split; [ now constructor | exact Hglob ].
  - intros [Hlies Hglob]. inversion Hlies; subst. constructor.
    apply (in_prune_all host entries (File n load)). split; assumption.
  - intros Hlies. inversion Hlies; subst.
    match goal with H : In (Dir _ _) (prune_all _ _) |- _ =>
      apply (in_prune_all host entries (Dir p sub)) in H;
      destruct H as (sub' & Hdir & ->) end.
    match goal with H : lies_at (prune_all _ _) _ _ |- _ =>
      apply IH in H; destruct H as [Hsub Hglob] end.
    split; [ | exact Hglob ]. econstructor; eassumption.
  - intros [Hlies Hglob]. inversion Hlies; subst.
    apply (lies_below _ p (prune_all host sub)).
    + apply (in_prune_all host entries (Dir p (prune_all host sub))).
      exists sub. split; [ assumption | reflexivity ].
    + apply IH. split; assumption.
Qed.

(** X8: files whose names the pattern [*.json] does not match count for
    nothing, at whatever depth they lie: the enumeration, the results and
    the lines printed are those of the directory with every such file taken
    out, in which the files are the matching files of the directory, each
    where it was; so two directories that are the same once such files are
    taken out give the same run. *)
Theorem other_files_are_ignored (host : flavour) (entries : list entry) :
  (forall dir, rglob host dir entries = rglob host dir (prune_all host entries))
  /\ main host (Some entries) = main host (Some (prune_all host entries))
  /\ (forall parents n load,
        lies_at (prune_all host entries) parents (File n load)
        <-> lies_at entries parents (File n load) /\ glob_json host n = true)
  /\ (forall entries',
        prune_all host entries = prune_all host entries' ->
        main host (Some entries) = main host (Some entries')).
Proof.
  assert (Hmain : forall es, main host (Some es) = main host (Some (prune_all host es))).
  { intros es. unfold main, scan. now rewrite rglob_prune_all. }
  split; [ intros dir; symmetry; apply rglob_prune_all | ].
  split; [ apply Hmain | ].
  split; [ intros parents n load; apply lies_at_prune_all | ].
  intros entries' Hsame. now rewrite (Hmain entries), (Hmain entries'), Hsame.
Qed.

Lemma other_files_are_ignored_example :
  main Posix (Some [File "readme.md" (Some scenario_A);
                    Dir "procs" [File "notes.txt" (Some scenario_A);
                                 File "a.json" (Some scenario_A);
                                 Dir "old" [File "a.JSON" (Some scenario_A)]]])
  = main Posix (Some [Dir "procs" [File "a.json" (Some scenario_A); Dir "old" []]]).
Proof.
  exact (proj1 (proj2 (other_files_are_ignored Posix
                         [File "readme.md" (Some scenario_A);
                          Dir "procs" [File "notes.txt" (Some scenario_A);
                                       File "a.json" (Some scenario_A);
                                       Dir "old" [File "a.JSON" (Some scenario_A)]]]))).
Defined.
